(** * Termaite: context compaction and the Plan-Act-Evaluate task handler

    A shallow embedding of [termaite/core/context_compactor.py],
    [termaite/core/task_handler.py] and [termaite/llm/parsers.py].
    Python strings are [string]s; Python lists are [list]s; indices are
    [nat]s.  The language model, the user's terminal and the permission
    manager are collaborators: their answers are passed in as arguments. *)

From Stdlib Require Import String Ascii List Arith ZArith Lia Bool.
From Stdlib Require Import DecimalString Permutation.
Import ListNotations.
Open Scope list_scope.
Open Scope string_scope.
Open Scope nat_scope.

(** ** String helpers (Python [str] operations used by the source) *)

Definition nl : string := String (ascii_of_nat 10) EmptyString.

(** [sub in s] *)
Fixpoint contains (sub s : string) : bool :=
  prefix sub s ||
  match s with
  | EmptyString => false
  | String _ s' => contains sub s'
  end.

(** [str.lower()] on ASCII letters. *)
Definition lower_ascii (c : ascii) : ascii :=
  let n := nat_of_ascii c in
  if (65 <=? n) && (n <=? 90) then ascii_of_nat (n + 32) else c.

Fixpoint lower (s : string) : string :=
  match s with
  | EmptyString => EmptyString
  | String c s' => String (lower_ascii c) (lower s')
  end.

(** [str.isspace()] in the ASCII range: \t \n \v \f \r, \x1c to \x1f, space. *)
Definition is_space (c : ascii) : bool :=
  let n := nat_of_ascii c in
  (n =? 32) || ((9 <=? n) && (n <=? 13)) || ((28 <=? n) && (n <=? 31)).

Fixpoint lstrip (s : string) : string :=
  match s with
  | EmptyString => EmptyString
  | String c s' => if is_space c then lstrip s' else s
  end.

Definition rev_string (s : string) : string :=
  string_of_list_ascii (rev (list_ascii_of_string s)).

(** [str.strip()] *)
Definition strip (s : string) : string :=
  rev_string (lstrip (rev_string (lstrip s))).

(** Python truthiness of a string. *)
Definition truthy (s : string) : bool := negb (String.eqb s EmptyString).

(** [str(n)] for a natural number. *)
Definition str_nat (n : nat) : string := NilZero.string_of_uint (Nat.to_uint n).

(** ** ContextEntry (context_compactor.py, dataclass [ContextEntry]) *)

Record ContextEntry := mkEntry {
  type : string;
  user_prompt : string;
  llm_response : string;
  timestamp : string;
  original_user_prompt : string;
  is_plan : bool;
  is_original_request : bool;
  compaction_level : nat
}.

(** Constructor call with the dataclass defaults for the trailing fields. *)
Definition ContextEntry_new (ty up resp ts : string) : ContextEntry :=
  mkEntry ty up resp ts EmptyString false false 0.

(** ** Compaction prompts ([ContextCompactor.__init__] and
    [create_context_summary]); [{context}] splits each into two halves. *)

Definition compact_prompt_before : string :=
  String.concat nl
  [EmptyString;
   "        You are a context compactor. Summarize the following conversation history into a more concise form while preserving:";
   "        - Key decisions and outcomes";
   "        - Important context for future actions";
   "        - The flow of the conversation";
   "        - Any error messages or important results";
   "        ";
   "        Make it about 50% of the original length.";
   "        ";
   "        Context to compact:";
   "        "].

Definition compact_prompt_after : string :=
  String.concat nl
  [EmptyString;
   "        ";
   "        Provide a compact summary:";
   "        "].

Definition very_compact_prompt_before : string :=
  String.concat nl
  [EmptyString;
   "        You are a context compactor. Create a very brief summary of the following context, preserving only:";
   "        - Essential outcomes and decisions";
   "        - Critical context needed for task completion";
   "        - Major errors or successes";
   "        ";
   "        Make it about 25% of the original length.";
   "        ";
   "        Context to compact:";
   "        "].

Definition very_compact_prompt_after : string :=
  String.concat nl
  [EmptyString;
   "        ";
   "        Provide a very compact summary:";
   "        "].

Definition summary_prompt_before : string :=
  String.concat nl
  [EmptyString;
   "        You are a context summarizer. Create a single detailed paragraph that summarizes the following historical conversation context. Focus on:";
   "        - Key decisions and outcomes that were reached";
   "        - Important context that may be relevant for future actions";
   "        - Any significant errors or successes";
   "        - The general flow and progression of the conversation";
   "        ";
   "        Write this as ONE cohesive paragraph that captures the essential information from this historical context.";
   "        ";
   "        Historical context to summarize:";
   "        "].

Definition summary_prompt_after : string :=
  String.concat nl
  [EmptyString;
   "        ";
   "        Summary paragraph:";
   "        "].

(** ** ContextCompactor *)

Section Compactor.

(** [self.max_context_tokens]; [self.compaction_threshold] is [0.75]. *)
Variable max_context_tokens : nat.

(** [estimate_token_count]: [len(text) // 4]. *)
Definition estimate_token_count (text : string) : nat := String.length text / 4.

Definition entry_tokens (e : ContextEntry) : nat :=
  estimate_token_count (user_prompt e ++ llm_response e).

Definition total_tokens (es : list ContextEntry) : nat :=
  list_sum (map entry_tokens es).

(** [int(self.max_context_tokens * 0.75)]: the float product is exact for
    every integer budget below 2^51, so the truncation is [3 * m / 4]. *)
Definition threshold_tokens : nat := max_context_tokens * 3 / 4.

(** [should_compact_context] *)
Definition should_compact_context (es : list ContextEntry) : bool :=
  threshold_tokens <? total_tokens es.

End Compactor.

(** One model call: [prepare_payload("simple", prompt)] may fail (falsy
    payload); otherwise [send_request] returns a response or [None]. *)
Inductive llm_call :=
  | PayloadFailed
  | Sent (response : option string).

(** [if not response]: [None] and the empty string are both failures. *)
Definition response_ok (r : option string) : option string :=
  match r with
  | Some s => if truthy s then Some s else None
  | None => None
  end.

(** ["\n".join(context_parts)] with the [User:]/[Assistant:] lines. *)
Definition context_text_of (entries : list ContextEntry) : string :=
  String.concat nl
    (flat_map (fun e => ["User: " ++ user_prompt e; "Assistant: " ++ llm_response e])
       entries).

Section Model.

(** The model, as a function of the prompt it is sent. *)
Variable llm : string -> llm_call.

(** [create_context_summary] *)
Definition create_context_summary (entries : list ContextEntry) : string :=
  match entries with
  | [] => EmptyString
  | _ =>
    let context_text := context_text_of entries in
    let prompt := summary_prompt_before ++ context_text ++ summary_prompt_after in
    match llm prompt with
    | PayloadFailed =>
        "[Summary of " ++ str_nat (length entries)
          ++ " historical entries - LLM unavailable]"
    | Sent r =>
        match response_ok r with
        | Some response => response
        | None =>
            "[Summary of " ++ str_nat (length entries)
              ++ " historical entries - LLM failed]"
        end
    end
  end.

(** [compact_context_segment] *)
Definition compact_context_segment (entries : list ContextEntry)
    (compaction_level : nat) : string :=
  match entries with
  | [] => EmptyString
  | _ =>
    let context_text := context_text_of entries in
    let prompt :=
      if compaction_level =? 1
      then compact_prompt_before ++ context_text ++ compact_prompt_after
      else very_compact_prompt_before ++ context_text ++ very_compact_prompt_after in
    match llm prompt with
    | PayloadFailed => context_text
    | Sent r =>
        match response_ok r with
        | Some response => response
        | None => context_text
        end
    end
  end.

End Model.

(** Searching [reversed(list(enumerate(context_entries)))] for the first hit
    is finding the last index satisfying [f]; [i] is the index of the head. *)
Fixpoint last_index_where (f : ContextEntry -> bool) (i : nat)
    (es : list ContextEntry) : option nat :=
  match es with
  | [] => None
  | e :: es' =>
    match last_index_where f (S i) es' with
    | Some j => Some j
    | None => if f e then Some i else None
    end
  end.

(** [latest_plan_index]; [None] stands for the source's [-1]. *)
Definition latest_plan_index (es : list ContextEntry) : option nat :=
  last_index_where is_plan 0 es.

(** [current_prompt_index]: searched only when [current_user_prompt] is
    truthy (not [None], not empty). *)
Definition current_prompt_index (es : list ContextEntry)
    (current_user_prompt : option string) : option nat :=
  match current_user_prompt with
  | Some s =>
      if truthy s then last_index_where (fun e => contains s (user_prompt e)) 0 es
      else None
  | None => None
  end.

(** [i != k] against an index that may be [-1]. *)
Definition is_index (i : nat) (k : option nat) : bool :=
  match k with Some j => i =? j | None => false end.

Definition compactable_indices (es : list ContextEntry)
    (latest_plan current_prompt : option nat) : list nat :=
  filter (fun i => negb (is_index i latest_plan) && negb (is_index i current_prompt))
    (seq 0 (length es)).

(** [i in indices_to_compact] *)
Definition mem (i : nat) (l : list nat) : bool := existsb (Nat.eqb i) l.

Definition default_entry : ContextEntry := ContextEntry_new EmptyString EmptyString EmptyString EmptyString.

(** The rebuild loop of [compact_context]: [i] is the index of the head,
    [inserted] is [summary_inserted]. *)
Fixpoint rebuild (itc : list nat) (summary : ContextEntry) (i : nat)
    (inserted : bool) (es : list ContextEntry) : list ContextEntry :=
  match es with
  | [] => []
  | e :: es' =>
    if mem i itc then
      if inserted then rebuild itc summary (S i) true es'
      else summary :: rebuild itc summary (S i) true es'
    else e :: rebuild itc summary (S i) inserted es'
  end.

(** The [current_prompt] entry appended when the prompt had no match. *)
Definition appended_entries (current_user_prompt : option string)
    (current_prompt : option nat) : list ContextEntry :=
  match current_user_prompt, current_prompt with
  | Some s, None =>
      if truthy s then [ContextEntry_new "current_prompt" s "[CURRENT TASK]" EmptyString]
      else []
  | _, _ => []
  end.

(** The summary entry built from the entries to summarize. *)
Definition summary_entry_of (llm : string -> llm_call) (ets : list ContextEntry) : ContextEntry :=
  mkEntry "compacted" "[HISTORICAL CONTEXT SUMMARY]" (create_context_summary llm ets)
    (timestamp (hd default_entry ets)) EmptyString false false 1.

(** [compact_context].  [indices_to_compact] is a prefix of the strictly
    increasing [compactable_indices], so [sorted(list(indices_to_compact))]
    is that prefix itself. *)
Definition compact_context (max_context_tokens : nat) (llm : string -> llm_call)
    (es : list ContextEntry) (current_user_prompt : option string) : list ContextEntry :=
  if negb (should_compact_context max_context_tokens es) then es else
  let p := latest_plan_index es in
  let c := current_prompt_index es current_user_prompt in
  let ci := compactable_indices es p c in
  if length ci <? 2 then es else
  let itc := firstn (length ci / 2) ci in
  match itc with
  | [] => es
  | _ =>
    let ets := map (fun i => nth i es default_entry) itc in
    let summary := summary_entry_of llm ets in
    app (rebuild itc summary 0 false es) (appended_entries current_user_prompt c)
  end.

(** ** The durable session store ([context.json])

    A JSON value as [json.load] returns it; the file holds an object that
    maps each working-directory hash to an array of entry objects.  Writing
    the file with [json.dump] and reading it back is the identity on these
    values, so the store is modelled by the loaded value itself. *)

Set Warnings "-register-all".

Inductive json :=
  | JNull
  | JBool (b : bool)
  | JNum (n : nat)
  | JStr (s : string)
  | JObj (fields : list (string * json)).

Definition dict := list (string * json).

(** [d.get(k)] *)
Fixpoint dict_get (k : string) (d : list (string * json)) : option json :=
  match d with
  | [] => None
  | (k', v) :: d' => if String.eqb k k' then Some v else dict_get k d'
  end.

(** Python truthiness of a JSON value. *)
Definition json_truthy (v : json) : bool :=
  match v with
  | JNull => false
  | JBool b => b
  | JNum n => negb (n =? 0)
  | JStr s => truthy s
  | JObj fs => match fs with [] => false | _ => true end
  end.

(** [str(v)] of a loaded JSON value (the [repr] of dict keys and values). *)
Fixpoint py_str (v : json) : string :=
  match v with
  | JNull => "None"
  | JBool true => "True"
  | JBool false => "False"
  | JNum n => str_nat n
  | JStr s => s
  | JObj fs =>
      "{" ++ String.concat ", "
               (map (fun '(k, x) =>
                       "'" ++ k ++ "': " ++
                       match x with JStr s => "'" ++ s ++ "'" | _ => py_str x end) fs)
          ++ "}"
  end.

(** [entry.get(k, default)] for a field holding a string. *)
Definition get_str (k : string) (d : dict) (default : string) : string :=
  match dict_get k d with
  | Some (JStr s) => s
  | Some v => py_str v
  | None => default
  end.

(** [a or b or c or d] over optional JSON values. *)
Definition json_or (vs : list (option json)) (last : json) : json :=
  match find (fun o => match o with Some v => json_truthy v | None => false end) vs with
  | Some (Some v) => v
  | _ => last
  end.

Definition store := list (string * list dict).

Fixpoint store_get (k : string) (s : store) : option (list dict) :=
  match s with
  | [] => None
  | (k', v) :: s' => if String.eqb k k' then Some v else store_get k s'
  end.

(** [context_data[k] = v]: an existing key keeps its place. *)
Fixpoint store_set (k : string) (v : list dict) (s : store) : store :=
  match s with
  | [] => [(k, v)]
  | (k', v') :: s' => if String.eqb k k' then (k', v) :: s' else (k', v') :: store_set k v s'
  end.

(** The response text of one raw entry in [parse_context_entries]. *)
Definition parse_llm_response (entry : dict) : string :=
  match dict_get "type" entry, dict_get "llm_full_response" entry with
  | Some (JStr t), Some response =>
      if String.eqb t "success" then
        match response with
        | JObj d =>
            py_str (json_or [dict_get "response" d; dict_get "content" d; dict_get "text" d]
                      response)
        | _ => py_str response
        end
      else get_str "llm_error_message" entry "Error occurred"
  | _, _ => get_str "llm_error_message" entry "Error occurred"
  end.

Definition parse_entry (i : nat) (entry : dict) : ContextEntry :=
  let llm_response := parse_llm_response entry in
  let is_plan := contains "plan" (lower (get_str "user_prompt" entry EmptyString))
                 || contains "checklist" (lower llm_response) in
  mkEntry (get_str "type" entry "unknown") (get_str "user_prompt" entry EmptyString)
    llm_response (get_str "timestamp" entry EmptyString) EmptyString
    is_plan (i =? 0) 0.

(** [parse_context_entries] *)
Definition parse_context_entries (context_data : store) (pwd_hash : string)
    : list ContextEntry :=
  match store_get pwd_hash context_data with
  | None => []
  | Some session_entries =>
      map (fun '(i, e) => parse_entry i e) (combine (seq 0 (length session_entries)) session_entries)
  end.

(** The JSON object written for one entry by [save_compacted_context]. *)
Definition entry_to_json (entry : ContextEntry) : dict :=
  if String.eqb (type entry) "compacted" then
    [("type", JStr "compacted"); ("user_prompt", JStr (user_prompt entry));
     ("llm_full_response", JObj [("response", JStr (llm_response entry))]);
     ("timestamp", JStr (timestamp entry));
     ("compaction_level", JNum (compaction_level entry))]
  else
    [("type", JStr (type entry)); ("user_prompt", JStr (user_prompt entry));
     ("llm_full_response", JObj [("response", JStr (llm_response entry))]);
     ("timestamp", JStr (timestamp entry))].

(** [save_compacted_context] up to its final [json.dump]: [loaded] is the
    content of the context file ([Some []] when it does not exist, [None]
    when loading it failed, and the method returns [False]); the result is
    the data handed to [json.dump].  The write itself is modelled by
    [save_compacted_context_result]. *)
Definition save_compacted_context (loaded : option store)
    (context_entries : list ContextEntry) (pwd_hash : string) : option store :=
  match loaded with
  | None => None
  | Some context_data =>
      Some (store_set pwd_hash (map entry_to_json context_entries) context_data)
  end.

(** The whole of [save_compacted_context]: the returned flag, and the
    content of the file once the write completed ([None] when nothing was
    written completely).  [dump_ok] tells whether [open(context_file, "w")]
    and [json.dump] succeed; when they raise, the method returns [False]. *)
Definition save_compacted_context_result (loaded : option store) (dump_ok : bool)
    (context_entries : list ContextEntry) (pwd_hash : string) : bool * option store :=
  match save_compacted_context loaded context_entries pwd_hash with
  | None => (false, None)
  | Some context_data => if dump_ok then (true, Some context_data) else (false, None)
  end.

(** ** Response parsers (llm/parsers.py) *)

(** [re.search(r"<tag>(.*?)</tag>", s, re.DOTALL)]: the first opening tag,
    then the first closing tag after it; the group is stripped, and a
    missing match gives the empty string. *)
Definition parse_tag (tag s : string) : string :=
  let op := "<" ++ tag ++ ">" in
  let cl := "</" ++ tag ++ ">" in
  match index 0 op s with
  | None => EmptyString
  | Some i =>
      let start := i + String.length op in
      let rest := substring start (String.length s - start) s in
      match index 0 cl rest with
      | None => EmptyString
      | Some j => strip (substring 0 j rest)
      end
  end.

Definition parse_llm_plan (s : string) : string := parse_tag "checklist" s.
Definition parse_llm_instruction (s : string) : string := parse_tag "instruction" s.
Definition parse_llm_decision (s : string) : string := parse_tag "decision" s.
Definition parse_llm_summary (s : string) : string := parse_tag "summary" s.
Definition parse_definition_of_done (s : string) : string := parse_tag "definition_of_done" s.

(** [s.split(":", 1)] when [":" in s]. *)
Fixpoint split_colon (s : string) : option (string * string) :=
  match s with
  | EmptyString => None
  | String c s' =>
      if Ascii.eqb c ":" then Some (EmptyString, s')
      else match split_colon s' with
           | Some (a, b) => Some (String c a, b)
           | None => None
           end
  end.

(** [extract_decision_type_and_message] *)
Definition extract_decision_type_and_message (decision_text : string) : string * string :=
  if negb (truthy decision_text) then (EmptyString, EmptyString) else
  match split_colon decision_text with
  | Some (decision_type, message) => (strip decision_type, strip message)
  | None => (strip decision_text, EmptyString)
  end.

(** Line boundaries of [str.splitlines()] in the ASCII range. *)
Definition is_line_break (c : ascii) : bool :=
  let n := nat_of_ascii c in ((10 <=? n) && (n <=? 13)) || ((28 <=? n) && (n <=? 30)).

(** Pieces between line boundaries; the empty pieces this adds next to
    [str.splitlines()] are dropped by the caller's [if line.strip()]. *)
Fixpoint split_lines (s : string) : list string :=
  match s with
  | EmptyString => [EmptyString]
  | String c s' =>
      if is_line_break c then EmptyString :: split_lines s'
      else match split_lines s' with
           | [] => [String c EmptyString]
           | x :: xs => String c x :: xs
           end
  end.

(** ** Task state (task_handler.py) *)

Inductive TaskStatus := IN_PROGRESS | COMPLETED | FAILED | CANCELLED.

Record TaskState := mkTaskState {

  current_plan : string;
  current_instruction : string;
  plan_array : list string;
  step_index : nat;
  last_action_taken : string;
  last_action_result : string;
  user_clarification : string;
  last_eval_decision : string;
  iteration : nat;
  definition_of_done : string;
  planner_summary : string;
  actor_summary : string;
  evaluator_summary : string
}.


(** [TaskState()] *)
Definition TaskState_new : TaskState :=
  mkTaskState EmptyString EmptyString [] 0 EmptyString EmptyString EmptyString
    EmptyString 0 EmptyString EmptyString EmptyString EmptyString.

(** Field assignments [state.f = v]. *)

Definition set_current_plan (st : TaskState) (v : string) : TaskState :=
  mkTaskState v (current_instruction st) (plan_array st) (step_index st) (last_action_taken st) (last_action_result st) (user_clarification st) (last_eval_decision st) (iteration st) (definition_of_done st) (planner_summary st) (actor_summary st) (evaluator_summary st).

Definition set_current_instruction (st : TaskState) (v : string) : TaskState :=
  mkTaskState (current_plan st) v (plan_array st) (step_index st) (last_action_taken st) (last_action_result st) (user_clarification st) (last_eval_decision st) (iteration st) (definition_of_done st) (planner_summary st) (actor_summary st) (evaluator_summary st).

Definition set_plan_array (st : TaskState) (v : list string) : TaskState :=
  mkTaskState (current_plan st) (current_instruction st) v (step_index st) (last_action_taken st) (last_action_result st) (user_clarification st) (last_eval_decision st) (iteration st) (definition_of_done st) (planner_summary st) (actor_summary st) (evaluator_summary st).

Definition set_step_index (st : TaskState) (v : nat) : TaskState :=
  mkTaskState (current_plan st) (current_instruction st) (plan_array st) v (last_action_taken st) (last_action_result st) (user_clarification st) (last_eval_decision st) (iteration st) (definition_of_done st) (planner_summary st) (actor_summary st) (evaluator_summary st).

Definition set_last_action_taken (st : TaskState) (v : string) : TaskState :=
  mkTaskState (current_plan st) (current_instruction st) (plan_array st) (step_index st) v (last_action_result st) (user_clarification st) (last_eval_decision st) (iteration st) (definition_of_done st) (planner_summary st) (actor_summary st) (evaluator_summary st).

Definition set_last_action_result (st : TaskState) (v : string) : TaskState :=
  mkTaskState (current_plan st) (current_instruction st) (plan_array st) (step_index st) (last_action_taken st) v (user_clarification st) (last_eval_decision st) (iteration st) (definition_of_done st) (planner_summary st) (actor_summary st) (evaluator_summary st).

Definition set_user_clarification (st : TaskState) (v : string) : TaskState :=
  mkTaskState (current_plan st) (current_instruction st) (plan_array st) (step_index st) (last_action_taken st) (last_action_result st) v (last_eval_decision st) (iteration st) (definition_of_done st) (planner_summary st) (actor_summary st) (evaluator_summary st).

Definition set_last_eval_decision (st : TaskState) (v : string) : TaskState :=
  mkTaskState (current_plan st) (current_instruction st) (plan_array st) (step_index st) (last_action_taken st) (last_action_result st) (user_clarification st) v (iteration st) (definition_of_done st) (planner_summary st) (actor_summary st) (evaluator_summary st).

Definition set_iteration (st : TaskState) (v : nat) : TaskState :=
  mkTaskState (current_plan st) (current_instruction st) (plan_array st) (step_index st) (last_action_taken st) (last_action_result st) (user_clarification st) (last_eval_decision st) v (definition_of_done st) (planner_summary st) (actor_summary st) (evaluator_summary st).

Definition set_definition_of_done (st : TaskState) (v : string) : TaskState :=
  mkTaskState (current_plan st) (current_instruction st) (plan_array st) (step_index st) (last_action_taken st) (last_action_result st) (user_clarification st) (last_eval_decision st) (iteration st) v (planner_summary st) (actor_summary st) (evaluator_summary st).

Definition set_planner_summary (st : TaskState) (v : string) : TaskState :=
  mkTaskState (current_plan st) (current_instruction st) (plan_array st) (step_index st) (last_action_taken st) (last_action_result st) (user_clarification st) (last_eval_decision st) (iteration st) (definition_of_done st) v (actor_summary st) (evaluator_summary st).

Definition set_actor_summary (st : TaskState) (v : string) : TaskState :=
  mkTaskState (current_plan st) (current_instruction st) (plan_array st) (step_index st) (last_action_taken st) (last_action_result st) (user_clarification st) (last_eval_decision st) (iteration st) (definition_of_done st) (planner_summary st) v (evaluator_summary st).

Definition set_evaluator_summary (st : TaskState) (v : string) : TaskState :=
  mkTaskState (current_plan st) (current_instruction st) (plan_array st) (step_index st) (last_action_taken st) (last_action_result st) (user_clarification st) (last_eval_decision st) (iteration st) (definition_of_done st) (planner_summary st) (actor_summary st) v.


(** The correction request of [_execute_plan_phase]. *)
Definition plan_correction (error_message context : string) : string :=
  String.concat nl
    ["<correction_request>";
     "<error>";
     "<type>Invalid Response Format</type>";
     "<message>Your previous response was malformed and did not follow the required structure.</message>";
     "<details>" ++ error_message ++ "</details>";
     "</error>";
     "<instruction>";
     "You MUST correct your output. Your response MUST contain BOTH a `<checklist>...</checklist>` block AND an `<instruction>...</instruction>` block. This is not optional. Failure to comply will result in task termination.";
     "</instruction>";
     "<original_context>";
     context;
     "</original_context>";
     "</correction_request>"].

(** [CommandResult] fields used by the handler. *)
Record CommandResult := mkCommandResult { exit_code : Z; output : string }.

(** [str(n)] for a Python [int]. *)
Definition str_int (z : Z) : string := NilZero.string_of_int (Z.to_int z).

Definition set_action (st : TaskState) (taken result : string) : TaskState :=
  set_last_action_result (set_last_action_taken st taken) result.

Section Handler.

(** [self.config.get("operation_mode", "normal")] *)
Variable operation_mode : string.
(** [self.config.get("allow_clarifying_questions", True)] *)
Variable allow_clarifying_questions : bool.
(** [self.permission_manager.check_command_permission(command, mode)] *)
Variable check_command_permission : string -> string -> bool * string.
(** [self.permission_manager.prompt_for_permission(command, ...)]:
    0 allow once, 1 deny, 2 cancel the task. *)
Variable prompt_for_permission : string -> nat * string.
(** [self.command_executor.execute(command)] *)
Variable execute : string -> CommandResult.
(** The line the user types when [input()] is called. *)
Variable input_line : string.

(** [_handle_command_suggestion] *)
Definition handle_command_suggestion (command : string) (st : TaskState)
    : TaskStatus * TaskState :=
  if String.eqb command "report_task_completion" then
    (IN_PROGRESS,
     set_action st "Internal signal: report_task_completion"
       "Action Agent determined task is complete and signaled Evaluator.")
  else
  let '(allowed, reason) := check_command_permission command operation_mode in
  (* [inl]: an early return; [inr allowed]: fall through to [if allowed]. *)
  let gate : (TaskStatus * TaskState) + bool :=
    if allowed then inr true
    else if String.eqb operation_mode "normal" then
      inl (IN_PROGRESS,
           set_action st ("Command '" ++ command ++ "' not executed.")
             ("Command blocked: " ++ reason))
    else if String.eqb operation_mode "gremlin" || String.eqb operation_mode "goblin" then
      if String.eqb operation_mode "goblin" then inr true
      else
        let '(decision, perm_reason) := prompt_for_permission command in
        if decision =? 0 then inr true
        else if decision =? 2 then inl (CANCELLED, st)
        else inl (IN_PROGRESS,
                  set_action st ("Command '" ++ command ++ "' denied by user")
                    ("User denied permission: " ++ perm_reason))
    else inr false in
  match gate with
  | inl ret => ret
  | inr true =>
      if String.eqb operation_mode "normal"
         && negb (String.eqb (lower input_line) "y") then
        (IN_PROGRESS,
         set_action st ("Command '" ++ command ++ "' cancelled by user")
           "User cancelled at confirmation")
      else
        let result := execute command in
        (IN_PROGRESS,
         set_action st ("Executed command: " ++ command)
           ("Exit Code: " ++ str_int (exit_code result) ++ ". Output:" ++ nl
              ++ (if truthy (output result) then output result else "(no output)")))
  | inr false => (IN_PROGRESS, st)
  end.

(** [_process_evaluation_decision]: the next status, the next context and
    the updated state. *)
Definition process_evaluation_decision (decision_type message : string)
    (st : TaskState) (original_prompt : string) : TaskStatus * string * TaskState :=
  if String.eqb decision_type "TASK_COMPLETE" then (COMPLETED, EmptyString, st)
  else if String.eqb decision_type "TASK_FAILED" then (FAILED, EmptyString, st)
  else if String.eqb decision_type "CONTINUE_PLAN" then
    let st1 := set_step_index st (S (step_index st)) in
    let next_context :=
      "Original request: '" ++ original_prompt ++ "'." ++ nl
      ++ "Current plan:" ++ nl ++ current_plan st1 ++ nl
      ++ "Previous instruction ('" ++ current_instruction st1
      ++ "') was completed successfully." ++ nl
      ++ "Result: '" ++ last_action_result st1 ++ "'." ++ nl
      ++ "Evaluator says: '" ++ message ++ "'." ++ nl
      ++ "Provide the next instruction from the plan for step "
      ++ str_nat (step_index st1 + 1) ++ "." in
    (IN_PROGRESS, next_context, set_user_clarification st1 EmptyString)
  else if String.eqb decision_type "REVISE_PLAN" then
    let next_context :=
      "Original request: '" ++ current_instruction st ++ "'." ++ nl
      ++ "Prev plan:" ++ nl ++ current_plan st ++ nl
      ++ "Prev instruction ('" ++ current_instruction st ++ "') result: '"
      ++ last_action_result st ++ "'." ++ nl
      ++ "Evaluator suggests revision: '" ++ message ++ "'." ++ nl
      ++ "Revise checklist and provide new first instruction." in
    (IN_PROGRESS, next_context,
     set_user_clarification
       (set_current_instruction (set_current_plan st EmptyString) EmptyString) EmptyString)
  else if String.eqb decision_type "CLARIFY_USER" then
    if allow_clarifying_questions then
      let st1 := set_user_clarification st input_line in
      let next_context :=
        "Original request: '" ++ current_instruction st1 ++ "'." ++ nl
        ++ "After action '" ++ last_action_taken st1 ++ "' (result: '"
        ++ last_action_result st1 ++ "'), "
        ++ "evaluator needs clarification. Question: '" ++ message ++ "'." ++ nl
        ++ "User's answer: '" ++ user_clarification st1 ++ "'." ++ nl
        ++ "Revise plan/next instruction based on this." in
      (IN_PROGRESS, next_context,
       set_current_instruction (set_current_plan st1 EmptyString) EmptyString)
    else (FAILED, EmptyString, st)
  else if String.eqb decision_type "VERIFY_ACTION" then
    let verification_context :=
      "Original request: '" ++ current_instruction st ++ "'." ++ nl
      ++ "Previous action: '" ++ last_action_taken st ++ "' (result: '"
      ++ last_action_result st ++ "')." ++ nl
      ++ "Evaluator needs verification. Execute this command to verify the outcome: "
      ++ message in
    (IN_PROGRESS, verification_context,
     set_user_clarification
       (set_current_instruction st ("Execute verification command: " ++ message))
       EmptyString)
  else (FAILED, EmptyString, st).

(** Outcome of a phase loop run against a finite script of model replies:
    the phase returned a status, or it is about to call the model again. *)
Inductive phase_result := Finished (s : TaskStatus) | Awaiting.

(** The [while True] loop of [_execute_plan_phase].  [replies] are the
    results of the successive model calls; [attempt] is the counter before
    the iteration increments it; the returned trace lists the [(attempt,
    context)] of every model call made or pending.  The compaction check
    and the history append of each iteration act on the session store
    only and are not modelled. *)
Fixpoint plan_loop (replies : list llm_call) (context : string) (attempt : nat)
    (st : TaskState) : phase_result * TaskState * list (nat * string) :=
  let attempt := S attempt in
  match replies with
  | [] => (Awaiting, st, [(attempt, context)])
  | reply :: rest =>
    let '(res, st', trace) :=
      match reply with
      | PayloadFailed => (Finished FAILED, st, [])
      | Sent r =>
        match response_ok r with
        | None => (Finished FAILED, st, [])
        | Some response =>
          let decision := parse_llm_decision response in
          if prefix "CLARIFY_USER:" decision then
            if allow_clarifying_questions then
              (Finished IN_PROGRESS,
               set_current_plan
                 (set_last_eval_decision (set_user_clarification st input_line)
                    "PLANNER_CLARIFY") EmptyString, [])
            else
              plan_loop rest
                (context ++ nl ++ nl ++ "PREVIOUS ATTEMPT FAILED. "
                 ++ "Your last response requested user clarification, which is disabled. "
                 ++ "Please generate a plan without asking questions.") attempt st
          else
            let st1 :=
              set_definition_of_done
                (set_planner_summary
                   (set_current_instruction
                      (set_current_plan st (parse_llm_plan response))
                      (parse_llm_instruction response))
                   (parse_llm_summary response))
                (parse_definition_of_done response) in
            if truthy (current_plan st1) && truthy (current_instruction st1) then
              (Finished IN_PROGRESS,
               set_last_eval_decision
                 (set_user_clarification
                    (set_step_index
                       (set_plan_array st1
                          (filter truthy (map strip (split_lines (current_plan st1)))))
                       0) EmptyString) EmptyString, [])
            else
              let error_messages :=
                app (if truthy (current_plan st1) then []
                     else ["Response did not contain a valid `<checklist>...</checklist>` block."])
                    (if truthy (current_instruction st1) then []
                     else ["Response did not contain a valid `<instruction>...</instruction>` block."]) in
              let error_message := String.concat " " error_messages in
              plan_loop rest (plan_correction error_message context) attempt st1
        end
      end in
    (res, st', (attempt, context) :: trace)
  end.

(** [_execute_plan_phase] from a fresh attempt counter. *)
Definition execute_plan_phase (replies : list llm_call) (context : string)
    (st : TaskState) : phase_result * TaskState * list (nat * string) :=
  plan_loop replies context 0 st.

End Handler.

(** ** [check_and_compact_context] (context_compactor.py) *)

(** The context file as [check_and_compact_context] finds it: absent,
    present but not loadable as JSON, or loaded. *)
Inductive context_file :=
  | NoFile
  | Unreadable
  | Readable (data : store).

(** [check_and_compact_context]: the returned flag and the data written to
    the file ([None] when nothing is written completely).  [reread] is the
    file as [save_compacted_context] loads it again ([None] when that load
    fails), and [dump_ok] whether its final write succeeds. *)
Definition check_and_compact_context (max_context_tokens : nat) (llm : string -> llm_call)
    (file : context_file) (reread : option store) (dump_ok : bool) (pwd_hash : string)
    (current_user_prompt : option string) : bool * option store :=
  match file with
  | NoFile => (true, None)
  | Unreadable => (false, None)
  | Readable context_data =>
    let entries := parse_context_entries context_data pwd_hash in
    match entries with
    | [] => (true, None)
    | _ =>
      if negb (should_compact_context max_context_tokens entries) then (true, None)
      else
        let compacted_entries := compact_context max_context_tokens llm entries current_user_prompt in
        save_compacted_context_result reread dump_ok compacted_entries pwd_hash
    end
  end.

(** ** The remaining loops of [TaskHandler] (task_handler.py) *)

(** [parse_suggested_command] (llm/parsers.py): the stripped group of the
    first [<command>...</command>] match, [None] when there is none. *)
Definition parse_suggested_command (llm_output : string) : option string :=
  let op := "<command>" in
  let cl := "</command>" in
  match index 0 op llm_output with
  | None => None
  | Some i =>
      let start := i + String.length op in
      let rest := substring start (String.length llm_output - start) llm_output in
      match index 0 cl rest with
      | None => None
      | Some j => Some (strip (substring 0 j rest))
      end
  end.

Definition action_error_message : string :=
  "Action agent response did not contain a valid `<command>...</command>` block. "
  ++ "This is a format violation. You MUST provide a command.".

(** The context of the next attempt of [_execute_action_phase]. *)
Definition action_retry_context (context : string) : string :=
  context ++ nl ++ nl ++ "PREVIOUS ATTEMPT FAILED. "
  ++ "Your last response was invalid. Reason: " ++ action_error_message ++ nl
  ++ "Please correct your response and provide a valid command.".

Definition evaluation_error_message : string :=
  "Response did not contain a valid `<decision>...</decision>` block.".

(** The context of the next attempt of [_execute_evaluation_phase], built
    from the phase's original [context]. *)
Definition evaluation_retry_context (context : string) : string :=
  context ++ nl ++ nl ++ "PREVIOUS ATTEMPT FAILED. "
  ++ "Your last response was invalid. Reason: " ++ evaluation_error_message ++ nl
  ++ "Please correct your response and provide a valid decision.".

(** [_build_action_context]: the context and the state after it (the
    clarification is cleared once used). *)
Definition build_action_context (original_prompt : string) (st : TaskState)
    : string * TaskState :=
  let context :=
    "User's original request: '" ++ original_prompt ++ "'" ++ nl ++ nl
    ++ "Instruction to execute: '" ++ current_instruction st ++ "'" in
  let context :=
    if truthy (planner_summary st)
    then context ++ nl ++ nl ++ "Planner's Summary: " ++ planner_summary st
    else context in
  if truthy (user_clarification st) then
    (context ++ nl ++ nl ++ "Context: User responded '" ++ user_clarification st
       ++ "' to my last question.",
     set_user_clarification st EmptyString)
  else (context, st).

(** [_build_evaluation_context] *)
Definition build_evaluation_context (original_prompt : string) (st : TaskState)
    : string * TaskState :=
  let context :=
    "User's original request: '" ++ original_prompt ++ "'" ++ nl ++ nl
    ++ "Current Plan Checklist (if available):" ++ nl ++ current_plan st ++ nl ++ nl in
  let context :=
    if truthy (definition_of_done st)
    then context ++ "Definition of Done for this task:" ++ nl ++ definition_of_done st
           ++ nl ++ nl
    else context in
  let context :=
    context ++ "Instruction that was attempted: '" ++ current_instruction st ++ "'" ++ nl ++ nl
    ++ "Action Taken by Actor:" ++ nl ++ last_action_taken st ++ nl ++ nl
    ++ "Result of Action:" ++ nl ++ last_action_result st in
  let context :=
    if truthy (planner_summary st)
    then context ++ nl ++ nl ++ "Planner's Summary: " ++ planner_summary st
    else context in
  let context :=
    if truthy (actor_summary st)
    then context ++ nl ++ nl ++ "Actor's Summary: " ++ actor_summary st
    else context in
  if truthy (user_clarification st) then
    (context ++ nl ++ nl ++ "Context: User responded '" ++ user_clarification st
       ++ "' to my last question.",
     set_user_clarification st EmptyString)
  else (context, st).

(** [needs_new_plan] in [handle_task]. *)
Definition needs_new_plan (st : TaskState) : bool :=
  negb (truthy (current_plan st))
  || String.eqb (last_eval_decision st) "REVISE_PLAN"
  || String.eqb (last_eval_decision st) "CONTINUE_PLAN"
  || (truthy (user_clarification st)
      && (String.eqb (last_eval_decision st) "CLARIFY_USER"
          || String.eqb (last_eval_decision st) "PLANNER_CLARIFY")).

Section HandlerLoop.

Variable operation_mode : string.
Variable allow_clarifying_questions : bool.
Variable check_command_permission : string -> string -> bool * string.
Variable prompt_for_permission : string -> nat * string.
Variable execute : string -> CommandResult.
Variable input_line : string.

(** The [while True] loop of [_execute_action_phase], in the style of
    [plan_loop]: the result, the state and the [(attempt, context)] of every
    model call made or pending. *)
Fixpoint action_loop (replies : list llm_call) (context : string) (attempt : nat)
    (st : TaskState) : phase_result * TaskState * list (nat * string) :=
  let attempt := S attempt in
  match replies with
  | [] => (Awaiting, st, [(attempt, context)])
  | reply :: rest =>
    let '(res, st', trace) :=
      match reply with
      | PayloadFailed => (Finished FAILED, st, [])
      | Sent r =>
        match response_ok r with
        | None => (Finished FAILED, st, [])
        | Some response =>
          let st1 := set_actor_summary st (parse_llm_summary response) in
          let suggested_command := parse_suggested_command response in
          match suggested_command with
          | Some command =>
            if truthy command then
              let '(status, st2) :=
                handle_command_suggestion operation_mode check_command_permission
                  prompt_for_permission execute input_line command st1 in
              (Finished status, st2, [])
            else action_loop rest (action_retry_context context) attempt st1
          | None => action_loop rest (action_retry_context context) attempt st1
          end
        end
      end in
    (res, st', (attempt, context) :: trace)
  end.

Definition execute_action_phase (replies : list llm_call) (context : string)
    (st : TaskState) : phase_result * TaskState * list (nat * string) :=
  action_loop replies context 0 st.

(** The [while True] loop of [_execute_evaluation_phase]: [context] is the
    phase's argument, [current_context] the one sent at this attempt.  The
    result carries the returned status and context. *)
Fixpoint evaluation_loop (replies : list llm_call) (context current_context : string)
    (attempt : nat) (st : TaskState) (original_prompt : string)
    : phase_result * string * TaskState * list (nat * string) :=
  let attempt := S attempt in
  match replies with
  | [] => (Awaiting, EmptyString, st, [(attempt, current_context)])
  | reply :: rest =>
    let '(res, ctx, st', trace) :=
      match reply with
      | PayloadFailed => (Finished FAILED, EmptyString, st, [])
      | Sent r =>
        match response_ok r with
        | None => (Finished FAILED, EmptyString, st, [])
        | Some response =>
          let st1 := set_evaluator_summary st (parse_llm_summary response) in
          let decision := parse_llm_decision response in
          if truthy decision then
            let '(decision_type, message) := extract_decision_type_and_message decision in
            let '(status, next_context, st2) :=
              process_evaluation_decision allow_clarifying_questions input_line
                decision_type message (set_last_eval_decision st1 decision_type)
                original_prompt in
            (Finished status, next_context, st2, [])
          else
            evaluation_loop rest context (evaluation_retry_context context) attempt st1
              original_prompt
        end
      end in
    (res, ctx, st', (attempt, current_context) :: trace)
  end.

Definition execute_evaluation_phase (replies : list llm_call) (context : string)
    (st : TaskState) (original_prompt : string)
    : phase_result * string * TaskState * list (nat * string) :=
  evaluation_loop replies context context 0 st original_prompt.

End HandlerLoop.

(** The phases of an iteration of [handle_task]. *)
Inductive phase := PlanPhase | ActionPhase | EvaluationPhase.

(** The loop of [handle_task].  A phase call reads the terminal at most once
    ([input()] in the plan and evaluation phases, the confirmation or the
    permission prompt in the action phase) and runs at most one command, so
    the user's answers and the command results are given per iteration
    (counted from 1, as [state.iteration]) and per phase: any sequence of
    answers and results over a run is one choice of these functions.  The
    permission manager is consulted per iteration too. *)
Section TaskLoop.

Variable operation_mode : string.
Variable allow_clarifying_questions : bool.
Variable check_command_permission : nat -> string -> string -> bool * string.
Variable prompt_for_permission : nat -> string -> nat * string.
Variable execute : nat -> string -> CommandResult.
Variable input_line : nat -> phase -> string.

(** The second half of iteration [n] of the [while task_status ==
    IN_PROGRESS] loop of [handle_task], once a plan is in place: the
    instruction check, the action phase and the evaluation phase.
    [continue] runs the remaining iterations; [replies] are the unused model
    replies. *)
Definition act_and_evaluate
    (continue : list llm_call -> string -> TaskState -> phase_result * string * TaskState * list llm_call)
    (n : nat) (user_prompt current_context : string) (st : TaskState) (replies : list llm_call)
    : phase_result * string * TaskState * list llm_call :=
  if negb (truthy (current_instruction st)) then (Finished FAILED, current_context, st, replies)
  else
    let '(ra, st2, tra) :=
      execute_action_phase operation_mode (check_command_permission n)
        (prompt_for_permission n) (execute n) (input_line n ActionPhase)
        replies current_context st in
    let rs2 := skipn (length tra) replies in
    match ra with
    | Finished IN_PROGRESS =>
      let '(eval_context, st3) := build_evaluation_context user_prompt st2 in
      let '(re, ctx4, st4, tre) :=
        execute_evaluation_phase allow_clarifying_questions (input_line n EvaluationPhase)
          rs2 eval_context st3 user_prompt in
      let rs3 := skipn (length tre) rs2 in
      match re with
      | Finished IN_PROGRESS => continue rs3 ctx4 st4
      | _ => (re, ctx4, st4, rs3)
      end
    | _ => (ra, current_context, st2, rs2)
    end.

(** One iteration of the [while task_status == IN_PROGRESS] loop of
    [handle_task]; [continue] runs the remaining iterations.  All model calls
    of the three phases take their replies from [replies] in order; each
    phase call consumes as many replies as its trace has entries.  The
    result is the final status ([Awaiting] when the replies run out), the
    current context, the state and the unused replies. *)
Definition task_iteration
    (continue : list llm_call -> string -> TaskState -> phase_result * string * TaskState * list llm_call)
    (replies : list llm_call) (user_prompt current_context : string) (st : TaskState)
    : phase_result * string * TaskState * list llm_call :=
  let n := S (iteration st) in
  let st0 := set_iteration st n in
  if needs_new_plan st0 then
    let '(r, st1, tr) :=
      execute_plan_phase allow_clarifying_questions (input_line n PlanPhase)
        replies current_context st0 in
    let rs1 := skipn (length tr) replies in
    match r with
    | Finished IN_PROGRESS =>
        let '(ctx1, st2) := build_action_context user_prompt st1 in
        act_and_evaluate continue n user_prompt ctx1 st2 rs1
    | _ => (r, current_context, st1, rs1)
    end
  else act_and_evaluate continue n user_prompt current_context st0 replies.

(** The loop itself, for at most [fuel] iterations.  Every iteration that
    loops consumes at least one reply, so [fuel] above the number of
    replies never runs out first (see [task_loop_fuel]). *)
Fixpoint task_loop (fuel : nat) (replies : list llm_call) (user_prompt current_context : string)
    (st : TaskState) : phase_result * string * TaskState * list llm_call :=
  match fuel with
  | 0 => (Awaiting, current_context, st, replies)
  | S fuel' =>
      task_iteration (fun rs ctx st' => task_loop fuel' rs user_prompt ctx st')
        replies user_prompt current_context st
  end.

(** [handle_task]: [Some (success, final_context)], or [None] when the
    replies run out before the loop ends.  On [COMPLETED] the completion
    summary is generated and printed; it does not change the state or the
    result. *)
Definition handle_task (replies : list llm_call) (user_prompt : string)
    : option (bool * string) :=
  let '(r, _, st, _) :=
    task_loop (S (length replies)) replies user_prompt user_prompt TaskState_new in
  match r with
  | Awaiting => None
  | Finished status =>
      let '(final_context, _) := build_evaluation_context user_prompt st in
      Some (match status with COMPLETED => true | _ => false end, final_context)
  end.

End TaskLoop.

(** ** Notions used to state properties of [compact_context] *)

(** [compactable_indices] as [compact_context] computes it. *)
Definition compactable (es : list ContextEntry) (cp : option string) : list nat :=
  compactable_indices es (latest_plan_index es) (current_prompt_index es cp).

(** [indices_to_compact] as [compact_context] computes it. *)
Definition selection (es : list ContextEntry) (cp : option string) : list nat :=
  firstn (length (compactable es cp) / 2) (compactable es cp).

(** [entries_to_summarize] *)
Definition summarized (es : list ContextEntry) (cp : option string) : list ContextEntry :=
  map (fun i => nth i es default_entry) (selection es cp).

(** The entries whose index (counted from [i]) is not in [itc], in order. *)
Fixpoint kept_entries (itc : list nat) (i : nat) (es : list ContextEntry)
    : list ContextEntry :=
  match es with
  | [] => []
  | e :: es' =>
      if mem i itc then kept_entries itc (S i) es' else e :: kept_entries itc (S i) es'
  end.

(** The decision types [_process_evaluation_decision] has a branch for. *)
Definition known_decision_types : list string :=
  ["TASK_COMPLETE"; "TASK_FAILED"; "CONTINUE_PLAN"; "REVISE_PLAN"; "CLARIFY_USER";
   "VERIFY_ACTION"].

(** The entries whose index (counted from [i]) is in [itc], in order. *)
Fixpoint selected_entries (itc : list nat) (i : nat) (es : list ContextEntry)
    : list ContextEntry :=
  match es with
  | [] => []
  | e :: es' =>
      if mem i itc then e :: selected_entries itc (S i) es' else selected_entries itc (S i) es'
  end.

(** ** Concrete inputs *)

(** An entry whose prompt and response have 200 characters together. *)
Definition scenario_entry (plan : bool) (p : string) : ContextEntry :=
  mkEntry "success" p (String.concat EmptyString (repeat "a" (200 - String.length p)))
    "t" EmptyString plan false 0.

(** Forty such entries: the plan entry at index 30, the prompt ["goal"] at 35. *)
Definition scenario_40 : list ContextEntry :=
  map (fun i => scenario_entry (i =? 30) (if i =? 35 then "goal" else "x")) (seq 0 40).

(** Two entries of four estimated tokens each. *)
Definition small_entries : list ContextEntry :=
  [ContextEntry_new "success" "abcdabcdabcdabcd" EmptyString "t0";
   ContextEntry_new "success" "abcdabcdabcdabcd" EmptyString "t1"].

(** A 400-character text. *)
Definition long_text : string := String.concat EmptyString (repeat "abcd" 100).

(** Two entries of a hundred estimated tokens each. *)
Definition big_entries : list ContextEntry :=
  [ContextEntry_new "success" long_text EmptyString "t0";
   ContextEntry_new "success" long_text EmptyString "t1"].

(** The correction detail the plan phase sends when the instruction block is missing. *)
Definition missing_instruction_message : string :=
  "Response did not contain a valid `<instruction>...</instruction>` block.".

(** ** Notions used to state further properties of the handler and the store *)

(** The fields a stored ["success"] entry keeps through a save and a load. *)
Definition stored_fields (e : ContextEntry) : string * string * string * string :=
  (type e, user_prompt e, llm_response e, timestamp e).

(** What a [CANCELLED] outcome of the task loop run on [replies] must come
    with: gremlin mode, and the last reply consumed (the one before the
    unused replies [rs]) suggested a command that the permission manager
    blocked and for which the user chose "cancel" (2) at the permission
    prompt, both in the final iteration. *)
Definition cancel_evidence (operation_mode : string)
    (check_command_permission : nat -> string -> string -> bool * string)
    (prompt_for_permission : nat -> string -> nat * string)
    (replies : list llm_call) (st' : TaskState) (rs : list llm_call) : Prop :=
  operation_mode = "gremlin" /\
  exists pre response command reason,
    replies = (pre ++ Sent (Some response) :: rs)%list /\
    parse_suggested_command response = Some command /\
    command <> "report_task_completion" /\
    fst (check_command_permission (iteration st') command operation_mode) = false /\
    prompt_for_permission (iteration st') command = (2, reason).

(** What a terminal outcome of the task loop run on [replies] implies:
    [COMPLETED] only after the evaluator's [TASK_COMPLETE], [CANCELLED] only
    with [cancel_evidence]. *)
Definition outcome_ok (operation_mode : string)
    (check_command_permission : nat -> string -> string -> bool * string)
    (prompt_for_permission : nat -> string -> nat * string) (replies : list llm_call)
    (o : phase_result * string * TaskState * list llm_call) : Prop :=
  let '(r, _, st', rs) := o in
  (r = Finished COMPLETED -> last_eval_decision st' = "TASK_COMPLETE") /\
  (r = Finished CANCELLED ->
   cancel_evidence operation_mode check_command_permission prompt_for_permission replies st' rs).

(** The state after [_execute_plan_phase] returned [IN_PROGRESS]: a validated
    plan, or a planner clarification. *)
Definition plan_ready (allow_clarifying_questions : bool) (input_line : string)
    (st' : TaskState) : Prop :=
  (truthy (current_plan st') = true /\ truthy (current_instruction st') = true /\
   step_index st' = 0 /\ user_clarification st' = EmptyString /\
   last_eval_decision st' = EmptyString /\
   plan_array st' = filter truthy (map strip (split_lines (current_plan st')))) \/
  (allow_clarifying_questions = true /\ current_plan st' = EmptyString /\
   user_clarification st' = input_line /\ last_eval_decision st' = "PLANNER_CLARIFY").

(** A permission manager that allows every command, one that blocks every
    command, users who answer "cancel", "allow once" or "deny" at the
    permission prompt, and a terminal whose commands succeed. *)
Definition allow_all (command mode : string) : bool * string := (true, "allowed").
Definition block_all (command mode : string) : bool * string := (false, "blocked").
Definition answer_cancel (command : string) : nat * string := (2, "cancelled").
Definition answer_once (command : string) : nat * string := (0, "allowed once").
Definition answer_deny (command : string) : nat * string := (1, "not now").
Definition run_ok (command : string) : CommandResult := mkCommandResult 0 "files".

(** Model replies: a plan, a command, and the evaluator's completion. *)
Definition plan_reply : llm_call :=
  Sent (Some "<checklist>1. ls</checklist><instruction>list the files</instruction>").
Definition command_reply : llm_call := Sent (Some "<command>ls</command>").
Definition complete_reply : llm_call := Sent (Some "<decision>TASK_COMPLETE: done</decision>").

(** The final context of the completed run plan, command, completion. *)
Definition completed_run_context : string :=
  Eval vm_compute in
    match handle_task "normal" true (fun _ => allow_all) (fun _ => answer_once)
            (fun _ => run_ok) (fun _ _ => "y")
            [plan_reply; command_reply; complete_reply] "list files" with
    | Some (_, c) => c
    | None => EmptyString
    end.

(** * Properties of context compaction *)

Module CompactionFacts.

Local Open Scope list_scope.

Lemma mem_In (i : nat) (l : list nat) : mem i l = true <-> In i l.
Proof.
  unfold mem. rewrite existsb_exists. split.
  - intros [x [Hx Heq]]. apply Nat.eqb_eq in Heq. subst. exact Hx.
  - intros H. exists i. split; [exact H | apply Nat.eqb_refl].
Qed.

Lemma mem_false (i : nat) (l : list nat) : mem i l = false <-> ~ In i l.
Proof.
  rewrite <- mem_In. destruct (mem i l); split; congruence.
Qed.

Lemma In_firstn_In {A} (n : nat) (l : list A) (x : A) : In x (firstn n l) -> In x l.
Proof.
  intros H. rewrite <- (firstn_skipn n l). apply in_or_app. now left.
Qed.

Lemma filter_seq_head (f : nat -> bool) (n a k : nat) (rest : list nat) :
  filter f (seq a n) = k :: rest -> forall x, In x rest -> k < x.
Proof.
  revert a. induction n as [|n IH]; intros a H x Hx; simpl in H; [discriminate|].
  destruct (f a) eqn:Fa.
  - injection H as <- <-. apply filter_In in Hx as [Hx _].
    apply in_seq in Hx. lia.
  - exact (IH (S a) H x Hx).
Qed.

Lemma filter_seq_bounds (f : nat -> bool) (n a x : nat) :
  In x (filter f (seq a n)) -> a <= x < a + n.
Proof. intros H. apply filter_In in H as [H _]. now apply in_seq. Qed.

Lemma rebuild_inserted (itc : list nat) (s : ContextEntry) (es : list ContextEntry) (i : nat) :
  rebuild itc s i true es = kept_entries itc i es.
Proof.
  revert i. induction es as [|e es IH]; intros i; simpl; [reflexivity|].
  destruct (mem i itc); rewrite IH; reflexivity.
Qed.

(** Before the first selected index the rebuild copies the entries; at it
    the summary is inserted; after it only the kept entries follow. *)
Lemma rebuild_first (itc : list nat) (s : ContextEntry) (es : list ContextEntry) :
  forall i k, i <= k -> k < i + length es -> mem k itc = true ->
  (forall j, i <= j -> j < k -> mem j itc = false) ->
  exists post,
    rebuild itc s i false es = firstn (k - i) es ++ s :: post /\
    kept_entries itc i es = firstn (k - i) es ++ post.
Proof.
  induction es as [|e es IH]; intros i k Hik Hk Hmem Hbefore; simpl in Hk; [lia|].
  destruct (Nat.eq_dec k i) as [->|Hne].
  - exists (kept_entries itc (S i) es). simpl. rewrite Hmem, Nat.sub_diag.
    simpl. rewrite rebuild_inserted. split; reflexivity.
  - assert (Hi : mem i itc = false) by (apply Hbefore; lia).
    destruct (IH (S i) k) as [post [H1 H2]]; [lia | lia | exact Hmem | |].
    { intros j Hj1 Hj2. apply Hbefore; lia. }
    exists post. simpl. rewrite Hi.
    replace (k - i) with (S (k - S i)) by lia. simpl.
    rewrite H1, H2. split; reflexivity.
Qed.

Lemma kept_entries_In (itc : list nat) (es : list ContextEntry) :
  forall i j, j < length es -> mem (i + j) itc = false ->
  In (nth j es default_entry) (kept_entries itc i es).
Proof.
  induction es as [|e es IH]; intros i j Hj Hm; simpl in Hj; [lia|].
  destruct j as [|j]; simpl.
  - rewrite Nat.add_0_r in Hm. rewrite Hm. now left.
  - assert (Hm' : mem (S i + j) itc = false) by (now replace (S i + j) with (i + S j) by lia).
    destruct (mem i itc); [|right]; apply IH; lia || exact Hm'.
Qed.

Lemma selection_in_compactable (es : list ContextEntry) (cp : option string) (x : nat) :
  In x (selection es cp) -> In x (compactable es cp).
Proof. apply In_firstn_In. Qed.

Lemma compactable_bounds (es : list ContextEntry) (cp : option string) (x : nat) :
  In x (compactable es cp) -> x < length es.
Proof. intros H. apply filter_seq_bounds in H. lia. Qed.

Lemma selection_nonempty (es : list ContextEntry) (cp : option string) :
  2 <= length (compactable es cp) ->
  exists k rest, selection es cp = k :: rest.
Proof.
  intros H. unfold selection.
  destruct (compactable es cp) as [|k l] eqn:E; simpl in H; [lia|].
  destruct (length (k :: l) / 2) eqn:D.
  - apply Nat.div_small_iff in D; simpl in *; lia.
  - exists k, (firstn n l). reflexivity.
Qed.

(** [compact_context] once compaction proceeds. *)
Lemma compact_context_proceeds (max : nat) (llm : string -> llm_call)
    (es : list ContextEntry) (cp : option string) :
  should_compact_context max es = true -> 2 <= length (compactable es cp) ->
  compact_context max llm es cp =
  rebuild (selection es cp) (summary_entry_of llm (summarized es cp)) 0 false es
    ++ appended_entries cp (current_prompt_index es cp).
Proof.
  intros Hs Hc. destruct (selection_nonempty es cp Hc) as [k [rest Hsel]].
  unfold compact_context. rewrite Hs. simpl negb. cbv iota.
  unfold summarized, selection, compactable in *.
  destruct (Nat.ltb_spec (length (compactable_indices es (latest_plan_index es)
              (current_prompt_index es cp))) 2) as [Hlt|_]; [lia|].
  rewrite Hsel. reflexivity.
Qed.

(** The first selected index is the smallest one. *)
Lemma selection_head_min (es : list ContextEntry) (cp : option string) (k : nat) (rest : list nat) :
  selection es cp = k :: rest -> forall j, In j (selection es cp) -> k <= j.
Proof.
  intros Hsel j Hj.
  destruct (compactable es cp) as [|k' l] eqn:E.
  - unfold selection in Hsel. rewrite E in Hsel. discriminate.
  - assert (k' = k) as <-.
    { unfold selection in Hsel. rewrite E in Hsel.
      destruct (length (k' :: l) / 2); simpl in Hsel; congruence. }
    apply selection_in_compactable in Hj. rewrite E in Hj.
    destruct Hj as [->|Hj]; [lia|].
    unfold compactable, compactable_indices in E.
    pose proof (filter_seq_head _ _ _ _ _ E j Hj). lia.
Qed.

End CompactionFacts.

Module CompactionShape.

Import CompactionFacts.
Local Open Scope list_scope.

(** Shape of the output of a compaction pass. *)
Lemma compact_context_decomposition (max : nat) (llm : string -> llm_call)
    (es : list ContextEntry) (cp : option string) :
  should_compact_context max es = true -> 2 <= length (compactable es cp) ->
  (forall j, In j (selection es cp) -> hd 0 (selection es cp) <= j) /\
  exists post,
    compact_context max llm es cp =
      firstn (hd 0 (selection es cp)) es ++ summary_entry_of llm (summarized es cp)
        :: post ++ appended_entries cp (current_prompt_index es cp) /\
    kept_entries (selection es cp) 0 es = firstn (hd 0 (selection es cp)) es ++ post.
Proof.
  intros Hs Hc.
  destruct (selection_nonempty es cp Hc) as [k [rest Hsel]].
  pose proof (selection_head_min es cp k rest Hsel) as Hmin.
  rewrite Hsel in Hmin |- *. simpl hd. split; [exact Hmin|].
  rewrite (compact_context_proceeds max llm es cp Hs Hc), Hsel.
  destruct (rebuild_first (k :: rest) (summary_entry_of llm (summarized es cp)) es 0 k)
    as [post [H1 H2]].
  - lia.
  - simpl. apply compactable_bounds with (cp := cp).
    apply selection_in_compactable. rewrite Hsel. now left.
  - apply mem_In. now left.
  - intros j _ Hj. apply mem_false. intros Hin. specialize (Hmin j Hin). lia.
  - rewrite Nat.sub_0_r in H1, H2. exists post. rewrite H1, H2. split; [|reflexivity].
    rewrite <- app_assoc. reflexivity.
Qed.

(** Every entry whose index is not selected survives the pass. *)
Lemma unselected_entry_survives (max : nat) (llm : string -> llm_call)
    (es : list ContextEntry) (cp : option string) (j : nat) :
  j < length es -> ~ In j (selection es cp) ->
  In (nth j es default_entry) (compact_context max llm es cp).
Proof.
  intros Hj Hnot.
  destruct (should_compact_context max es) eqn:Hs.
  - destruct (Nat.lt_ge_cases (length (compactable es cp)) 2) as [Hlt|Hge].
    + unfold compact_context. rewrite Hs. simpl negb. cbv iota.
      unfold compactable in Hlt. apply Nat.ltb_lt in Hlt. rewrite Hlt.
      now apply nth_In.
    + destruct (compact_context_decomposition max llm es cp Hs Hge) as [_ [post [Hout Hkept]]].
      assert (Hin : In (nth j es default_entry) (kept_entries (selection es cp) 0 es)).
      { apply kept_entries_In; [exact Hj | now apply mem_false]. }
      rewrite Hkept in Hin. rewrite Hout.
      apply in_app_or in Hin as [Hin|Hin]; apply in_or_app; [now left|].
      right. right. apply in_or_app. now left.
  - unfold compact_context. rewrite Hs. simpl. now apply nth_In.
Qed.

Lemma last_index_where_bounds (f : ContextEntry -> bool) (es : list ContextEntry) :
  forall i j, last_index_where f i es = Some j -> i <= j < i + length es.
Proof.
  induction es as [|e es IH]; intros i j H; simpl in H; [discriminate|].
  destruct (last_index_where f (S i) es) as [j'|] eqn:E.
  - injection H as <-. apply IH in E. simpl. lia.
  - destruct (f e); [injection H as <-; simpl; lia | discriminate].
Qed.

Lemma last_index_where_always (f : ContextEntry -> bool) (es : list ContextEntry) :
  (forall e, f e = true) ->
  forall i j, last_index_where f i es = Some j -> S j = i + length es.
Proof.
  intros Hf. induction es as [|e es IH]; intros i j H; simpl in H; [discriminate|].
  destruct (last_index_where f (S i) es) as [j'|] eqn:E.
  - injection H as <-. apply IH in E. simpl. lia.
  - rewrite Hf in H. injection H as <-. destruct es as [|e' es].
    + simpl. lia.
    + simpl in E. destruct (last_index_where f (S (S i)) es); [discriminate|].
      rewrite Hf in E. discriminate.
Qed.

Lemma firstn_filter_seq_lt (f : nat -> bool) (n : nat) :
  forall a m x, m < length (filter f (seq a n)) ->
  In x (firstn m (filter f (seq a n))) -> S x < a + n.
Proof.
  induction n as [|n IH]; intros a m x Hm Hx; simpl in Hm |- *; [lia|].
  simpl in Hx. destruct (f a).
  - destruct m as [|m]; simpl in Hx; [contradiction|].
    simpl in Hm. destruct Hx as [<-|Hx].
    + destruct n as [|n]; simpl in Hm; [lia | lia].
    + specialize (IH (S a) m x ltac:(lia) Hx). lia.
  - specialize (IH (S a) m x Hm Hx). lia.
Qed.

(** The newest entry is never selected. *)
Lemma selection_below_last (es : list ContextEntry) (cp : option string) (x : nat) :
  In x (selection es cp) -> S x < length es.
Proof.
  intros Hx. unfold selection in Hx.
  destruct (length (compactable es cp)) as [|n] eqn:L.
  - simpl in Hx. contradiction.
  - unfold compactable, compactable_indices in Hx, L.
    apply firstn_filter_seq_lt in Hx.
    + lia.
    + rewrite L. apply Nat.div_lt; lia.
Qed.

Lemma excluded_not_selected (es : list ContextEntry) (cp : option string) (x : nat) :
  (latest_plan_index es = Some x \/ current_prompt_index es cp = Some x) ->
  ~ In x (selection es cp).
Proof.
  intros Hx Hin. apply selection_in_compactable in Hin.
  unfold compactable, compactable_indices in Hin. apply filter_In in Hin as [_ Hf].
  destruct Hx as [Hx|Hx]; rewrite Hx in Hf; simpl in Hf;
    rewrite Nat.eqb_refl in Hf; simpl in Hf;
    [discriminate | now rewrite andb_false_r in Hf].
Qed.

End CompactionShape.

Module CompactionCount.

Import CompactionFacts CompactionShape.
Local Open Scope list_scope.

Lemma total_tokens_app (l1 l2 : list ContextEntry) :
  total_tokens (l1 ++ l2) = total_tokens l1 + total_tokens l2.
Proof. unfold total_tokens. now rewrite map_app, list_sum_app. Qed.

Lemma kept_selected_length (itc : list nat) (es : list ContextEntry) :
  forall i, length (kept_entries itc i es) + length (selected_entries itc i es) = length es.
Proof.
  induction es as [|e es IH]; intros i; simpl; [reflexivity|].
  specialize (IH (S i)). destruct (mem i itc); simpl; lia.
Qed.

Lemma kept_selected_tokens (itc : list nat) (es : list ContextEntry) :
  forall i, total_tokens (kept_entries itc i es) + total_tokens (selected_entries itc i es)
            = total_tokens es.
Proof.
  induction es as [|e es IH]; intros i; simpl; [reflexivity|].
  specialize (IH (S i)). unfold total_tokens in *.
  destruct (mem i itc); simpl; lia.
Qed.

Lemma selected_entries_map (itc : list nat) (es : list ContextEntry) :
  forall i, selected_entries itc i es =
    map (fun j => nth (j - i) es default_entry) (filter (fun j => mem j itc) (seq i (length es))).
Proof.
  induction es as [|e es IH]; intros i; [reflexivity|].
  cbn [selected_entries length seq filter].
  assert (Hshift : map (fun j => nth (j - i) (e :: es) default_entry)
                     (filter (fun j => mem j itc) (seq (S i) (length es)))
                   = map (fun j => nth (j - S i) es default_entry)
                     (filter (fun j => mem j itc) (seq (S i) (length es)))).
  { apply map_ext_in. intros j Hj. apply filter_seq_bounds in Hj.
    replace (j - i) with (S (j - S i)) by lia. reflexivity. }
  destruct (mem i itc); cbn [map]; rewrite Hshift, IH; [rewrite Nat.sub_diag|]; reflexivity.
Qed.

Lemma selection_NoDup (es : list ContextEntry) (cp : option string) : NoDup (selection es cp).
Proof.
  unfold selection. apply NoDup_app_remove_r with
    (l' := skipn (length (compactable es cp) / 2) (compactable es cp)).
  rewrite firstn_skipn. apply NoDup_filter, seq_NoDup.
Qed.

Lemma selection_perm (es : list ContextEntry) (cp : option string) :
  Permutation (filter (fun j => mem j (selection es cp)) (seq 0 (length es)))
              (selection es cp).
Proof.
  apply NoDup_Permutation.
  - apply NoDup_filter, seq_NoDup.
  - apply selection_NoDup.
  - intros x. rewrite filter_In, mem_In. split; [tauto|].
    intros Hx. split; [|exact Hx]. apply in_seq.
    apply selection_in_compactable, compactable_bounds in Hx. lia.
Qed.

Lemma selected_summarized_perm (es : list ContextEntry) (cp : option string) :
  Permutation (selected_entries (selection es cp) 0 es) (summarized es cp).
Proof.
  rewrite selected_entries_map. unfold summarized.
  rewrite (map_ext (fun j => nth (j - 0) es default_entry) (fun j => nth j es default_entry))
    by (intros j; now rewrite Nat.sub_0_r).
  apply Permutation_map, selection_perm.
Qed.

(** A compaction pass removes the selected entries' tokens and adds the
    summary entry's and the appended entries'. *)
Lemma compact_context_tokens (max : nat) (llm : string -> llm_call)
    (es : list ContextEntry) (cp : option string) :
  should_compact_context max es = true -> 2 <= length (compactable es cp) ->
  total_tokens (compact_context max llm es cp) + total_tokens (summarized es cp) =
  total_tokens es + entry_tokens (summary_entry_of llm (summarized es cp))
    + total_tokens (appended_entries cp (current_prompt_index es cp)).
Proof.
  intros Hs Hc.
  destruct (compact_context_decomposition max llm es cp Hs Hc) as [_ [post [Hout Hkept]]].
  rewrite Hout.
  assert (Hp : total_tokens (selected_entries (selection es cp) 0 es)
               = total_tokens (summarized es cp)).
  { unfold total_tokens. apply Permutation_list_sum, Permutation_map.
    apply selected_summarized_perm. }
  rewrite <- Hp.
  rewrite <- (kept_selected_tokens (selection es cp) es 0), Hkept.
  rewrite !total_tokens_app. unfold total_tokens. simpl.
  rewrite ?map_app, ?list_sum_app. lia.
Qed.

(** A compaction pass removes the selected entries and adds one summary
    entry and the appended entries. *)
Lemma compact_context_length (max : nat) (llm : string -> llm_call)
    (es : list ContextEntry) (cp : option string) :
  should_compact_context max es = true -> 2 <= length (compactable es cp) ->
  length (compact_context max llm es cp) + length (selection es cp) =
  length es + 1 + length (appended_entries cp (current_prompt_index es cp)).
Proof.
  intros Hs Hc.
  destruct (compact_context_decomposition max llm es cp Hs Hc) as [_ [post [Hout Hkept]]].
  rewrite Hout.
  pose proof (kept_selected_length (selection es cp) es 0) as Hl.
  rewrite Hkept in Hl.
  rewrite (Permutation_length (selected_summarized_perm es cp)) in Hl.
  unfold summarized in Hl. rewrite length_map in Hl.
  rewrite length_app in Hl. rewrite length_app. simpl. rewrite length_app. lia.
Qed.

(** Counting the indices that survive the exclusion of two distinct ones. *)
Lemma filter_two_out_length (p c : nat) (l : list nat) :
  NoDup l -> p <> c ->
  length (filter (fun i => negb (i =? p) && negb (i =? c)) l)
    + (if mem p l then 1 else 0) + (if mem c l then 1 else 0) = length l.
Proof.
  intros Hnd Hpc. induction Hnd as [|a l Ha Hnd IH]; [reflexivity|].
  assert (Hm : forall i, mem i (a :: l) = (i =? a) || mem i l) by reflexivity.
  rewrite !Hm. cbn [filter length].
  destruct (Nat.eqb_spec a p) as [Eap|Hap]; destruct (Nat.eqb_spec a c) as [Eac|Hac].
  - congruence.
  - subst a. rewrite Nat.eqb_refl, (proj2 (Nat.eqb_neq c p) (not_eq_sym Hpc)).
    rewrite (proj2 (mem_false p l) Ha) in IH |- *. simpl.
    destruct (mem c l); simpl in *; lia.
  - subst a. rewrite Nat.eqb_refl, (proj2 (Nat.eqb_neq p c) Hpc).
    rewrite (proj2 (mem_false c l) Ha) in IH |- *. simpl.
    destruct (mem p l); simpl in *; lia.
  - rewrite (proj2 (Nat.eqb_neq p a) (not_eq_sym Hap)),
      (proj2 (Nat.eqb_neq c a) (not_eq_sym Hac)). simpl. lia.
Qed.

End CompactionCount.

Module CompactionCount2.
Import CompactionFacts CompactionShape CompactionCount.
Local Open Scope list_scope.

Lemma compact_context_skips (max : nat) (llm : string -> llm_call)
    (es : list ContextEntry) (cp : option string) :
  should_compact_context max es = false \/ length (compactable es cp) < 2 ->
  compact_context max llm es cp = es.
Proof.
  intros [Hs|Hlt]; unfold compact_context.
  - now rewrite Hs.
  - destruct (should_compact_context max es); [|reflexivity]. simpl negb. cbv iota.
    unfold compactable in Hlt. apply Nat.ltb_lt in Hlt. now rewrite Hlt.
Qed.

Lemma total_tokens_uniform (es : list ContextEntry) :
  Forall (fun e => String.length (user_prompt e ++ llm_response e) = 200) es ->
  total_tokens es = 50 * length es.
Proof.
  induction 1 as [|e es He _ IH]; [reflexivity|].
  unfold total_tokens in *. simpl. rewrite IH.
  unfold entry_tokens, estimate_token_count. rewrite He. simpl. lia.
Qed.

Lemma current_prompt_index_bounds (es : list ContextEntry) (cp : option string) (c : nat) :
  current_prompt_index es cp = Some c -> c < length es.
Proof.
  unfold current_prompt_index. destruct cp as [s|]; [|discriminate].
  destruct (truthy s); [|discriminate].
  intros H. apply last_index_where_bounds in H. lia.
Qed.

Lemma summarized_nonempty (es : list ContextEntry) (cp : option string) :
  2 <= length (compactable es cp) -> exists x rest, summarized es cp = x :: rest.
Proof.
  intros H. destruct (selection_nonempty es cp H) as [k [rest Hs]].
  unfold summarized. rewrite Hs. simpl. eauto.
Qed.

End CompactionCount2.

Module CompactionClaims.

Import CompactionFacts CompactionShape CompactionCount CompactionCount2.
Local Open Scope list_scope.

(** C9: when [should_compact_context] holds but fewer than two indices
    remain once the latest plan entry and the current prompt entry are
    excluded, [compact_context] returns its input unchanged. *)
Theorem compact_context_small_identity (max : nat) (llm : string -> llm_call)
    (es : list ContextEntry) (cp : option string) :
  should_compact_context max es = true ->
  length (compactable_indices es (latest_plan_index es) (current_prompt_index es cp)) < 2 ->
  compact_context max llm es cp = es.
Proof.
  intros Hs Hlt. unfold compact_context. rewrite Hs. simpl negb. cbv iota.
  apply Nat.ltb_lt in Hlt. now rewrite Hlt.
Qed.

Lemma compact_context_small_identity_witness :
  compact_context 0 (fun _ => Sent (Some "S"))
    [ContextEntry_new "success" "abcd" EmptyString "t"] None
  = [ContextEntry_new "success" "abcd" EmptyString "t"].
Proof.
  apply compact_context_small_identity; vm_compute; reflexivity.
Defined.

(** C7: in a compaction pass the output is the prefix of entries before
    the first (smallest) selected index, then the summary entry once, then
    the remaining unselected entries in their input order (then the
    appended current-prompt entry, if any); prefix and remainder together
    are exactly the unselected entries in input order. *)
Theorem compact_context_order_preserved (max : nat) (llm : string -> llm_call)
    (es : list ContextEntry) (cp : option string) :
  should_compact_context max es = true -> 2 <= length (compactable es cp) ->
  (forall j, In j (selection es cp) -> hd 0 (selection es cp) <= j) /\
  exists post,
    compact_context max llm es cp =
      firstn (hd 0 (selection es cp)) es ++ summary_entry_of llm (summarized es cp)
        :: post ++ appended_entries cp (current_prompt_index es cp) /\
    kept_entries (selection es cp) 0 es = firstn (hd 0 (selection es cp)) es ++ post.
Proof. apply compact_context_decomposition. Qed.

Lemma compact_context_order_preserved_witness :
  exists post,
    compact_context 4 (fun _ => Sent (Some "S")) small_entries None =
      firstn (hd 0 (selection small_entries None)) small_entries
        ++ summary_entry_of (fun _ => Sent (Some "S")) (summarized small_entries None)
        :: post ++ appended_entries None (current_prompt_index small_entries None) /\
    kept_entries (selection small_entries None) 0 small_entries
      = firstn (hd 0 (selection small_entries None)) small_entries ++ post.
Proof.
  apply (compact_context_order_preserved 4 (fun _ => Sent (Some "S")) small_entries None);
    vm_compute; [reflexivity | lia].
Defined.

(** C6: the latest plan entry and the latest entry whose prompt contains
    the current prompt are never selected for summarization and appear in
    the output of [compact_context]. *)
Theorem compact_context_preserves_plan_and_prompt (max : nat) (llm : string -> llm_call)
    (es : list ContextEntry) (cp : option string) :
  (forall p, latest_plan_index es = Some p ->
     ~ In p (selection es cp) /\
     In (nth p es default_entry) (compact_context max llm es cp)) /\
  (forall s c, cp = Some s ->
     last_index_where (fun e => contains s (user_prompt e)) 0 es = Some c ->
     ~ In c (selection es cp) /\
     In (nth c es default_entry) (compact_context max llm es cp)).
Proof.
  split.
  - intros p Hp.
    assert (Hn : ~ In p (selection es cp)) by (apply excluded_not_selected; now left).
    split; [exact Hn|].
    apply unselected_entry_survives; [|exact Hn].
    apply last_index_where_bounds in Hp. simpl in Hp. lia.
  - intros s c -> Hc.
    pose proof (last_index_where_bounds _ _ _ _ Hc) as Hb. simpl in Hb.
    assert (Hn : ~ In c (selection es (Some s))).
    { destruct (truthy s) eqn:Ts.
      - apply excluded_not_selected. right. simpl. now rewrite Ts.
      - unfold truthy in Ts. apply negb_false_iff, String.eqb_eq in Ts. subst s.
        assert (Hlast : S c = 0 + length es).
        { apply (last_index_where_always (fun e => contains EmptyString (user_prompt e)));
            [|exact Hc].
          intros e. destruct (user_prompt e); reflexivity. }
        intros Hin. apply selection_below_last in Hin. lia. }
    split; [exact Hn|].
    apply unselected_entry_survives; [lia | exact Hn].
Qed.

Lemma compact_context_preserves_plan_and_prompt_witness :
  (~ In 30 (selection scenario_40 (Some "goal")) /\
   In (nth 30 scenario_40 default_entry)
      (compact_context 2000 (fun _ => Sent (Some "S")) scenario_40 (Some "goal"))) /\
  (~ In 35 (selection scenario_40 (Some "goal")) /\
   In (nth 35 scenario_40 default_entry)
      (compact_context 2000 (fun _ => Sent (Some "S")) scenario_40 (Some "goal"))).
Proof.
  pose proof (compact_context_preserves_plan_and_prompt 2000 (fun _ => Sent (Some "S"))
                scenario_40 (Some "goal")) as [Hp Hc].
  split; [apply Hp | apply (Hc "goal")]; vm_compute; reflexivity.
Defined.


(** C5 (as stated): a compaction pass can increase the total estimate,
    here because the summary entry is longer than the entry it replaces. *)
Lemma compact_context_can_grow :
  total_tokens small_entries = 8 /\
  total_tokens (compact_context 4 (fun _ => Sent (Some long_text)) small_entries None) = 111.
Proof. split; vm_compute; reflexivity. Qed.

(** C5 (amended): when no current-prompt entry is appended and the summary
    entry's estimate is at most the summarized entries' total estimate,
    the output's total estimate is at most the input's. *)
Theorem compact_context_tokens_le (max : nat) (llm : string -> llm_call)
    (es : list ContextEntry) (cp : option string) :
  appended_entries cp (current_prompt_index es cp) = [] ->
  entry_tokens (summary_entry_of llm (summarized es cp)) <= total_tokens (summarized es cp) ->
  total_tokens (compact_context max llm es cp) <= total_tokens es.
Proof.
  intros Happ Hsum.
  destruct (should_compact_context max es) eqn:Hs.
  - destruct (Nat.lt_ge_cases (length (compactable es cp)) 2) as [Hlt|Hge].
    + rewrite compact_context_skips by (now right). lia.
    + pose proof (compact_context_tokens max llm es cp Hs Hge) as H.
      rewrite Happ in H. change (total_tokens []) with 0 in H. lia.
  - rewrite compact_context_skips by (now left). lia.
Qed.

Lemma compact_context_tokens_le_witness :
  total_tokens (compact_context 0 (fun _ => Sent (Some "ok")) big_entries None)
    <= total_tokens big_entries.
Proof.
  apply compact_context_tokens_le; vm_compute; [reflexivity | lia].
Defined.

(** C8: forty entries of 200 characters, budget 2000, one latest plan
    entry and one distinct current-prompt entry: [should_compact_context]
    holds, 38 indices are compactable, the oldest 19 of them are selected,
    and the output has 22 entries. *)
Theorem compact_context_scenario_40 (llm : string -> llm_call)
    (es : list ContextEntry) (p c : nat) (s : string) :
  length es = 40 ->
  Forall (fun e => String.length (user_prompt e ++ llm_response e) = 200) es ->
  latest_plan_index es = Some p ->
  current_prompt_index es (Some s) = Some c ->
  p <> c ->
  should_compact_context 2000 es = true /\
  length (compactable es (Some s)) = 38 /\
  selection es (Some s) = firstn 19 (compactable es (Some s)) /\
  length (compact_context 2000 llm es (Some s)) = 22.
Proof.
  intros Hlen Hall Hp Hc Hpc.
  assert (Hs : should_compact_context 2000 es = true).
  { unfold should_compact_context. rewrite (total_tokens_uniform es Hall), Hlen.
    vm_compute. reflexivity. }
  pose proof (last_index_where_bounds _ _ _ _ Hp) as Hpb. simpl in Hpb.
  pose proof (current_prompt_index_bounds _ _ _ Hc) as Hcb.
  assert (Hci : length (compactable es (Some s)) = 38).
  { unfold compactable, compactable_indices. rewrite Hp, Hc. cbn [is_index].
    pose proof (filter_two_out_length p c (seq 0 (length es)) (seq_NoDup _ _) Hpc) as H.
    assert (mem p (seq 0 (length es)) = true) as Hmp by (apply mem_In, in_seq; lia).
    assert (mem c (seq 0 (length es)) = true) as Hmc by (apply mem_In, in_seq; lia).
    rewrite Hmp, Hmc, length_seq in H. lia. }
  assert (Hsel : selection es (Some s) = firstn 19 (compactable es (Some s))).
  { unfold selection. rewrite Hci. reflexivity. }
  repeat split; [exact Hs | exact Hci | exact Hsel |].
  pose proof (compact_context_length 2000 llm es (Some s) Hs ltac:(lia)) as H.
  rewrite Hc in H. simpl appended_entries in H.
  rewrite Hsel, length_firstn, Hci in H. simpl in H. lia.
Qed.

Lemma compact_context_scenario_40_witness :
  should_compact_context 2000 scenario_40 = true /\
  length (compactable scenario_40 (Some "goal")) = 38 /\
  selection scenario_40 (Some "goal") = firstn 19 (compactable scenario_40 (Some "goal")) /\
  length (compact_context 2000 (fun _ => Sent (Some "S")) scenario_40 (Some "goal")) = 22.
Proof.
  apply (compact_context_scenario_40 (fun _ => Sent (Some "S")) scenario_40 30 35 "goal").
  - reflexivity.
  - vm_compute. repeat constructor.
  - vm_compute. reflexivity.
  - vm_compute. reflexivity.
  - lia.
Defined.

(** C3 (as stated): when the summarization call fails, the compaction
    pass does not keep the summarized entries' text: the summary entry
    holds a placeholder and the original text is nowhere in the output. *)
Lemma compaction_failure_drops_text :
  map llm_response (compact_context 4 (fun _ => PayloadFailed) small_entries None)
    = ["[Summary of 1 historical entries - LLM unavailable]"%string; EmptyString] /\
  ~ In (context_text_of (summarized small_entries None))
       (map llm_response (compact_context 4 (fun _ => PayloadFailed) small_entries None)).
Proof.
  split; [vm_compute; reflexivity|].
  vm_compute. intros [H|[H|[]]]; discriminate.
Qed.

(** C3 (amended): when the summarization call fails, the compaction pass
    still replaces the selected entries by one summary entry: the output is
    the entries that were not selected, in order, with the summary entry
    inserted at the position of the first selected one, then the appended
    current-prompt entry if any.  The summary entry's text is the
    placeholder ["[Summary of N historical entries - LLM unavailable]"]
    (payload preparation failed) or ["... - LLM failed]"] (no response), N
    being the number of summarized entries, which is the number of selected
    ones; so no field of the output keeps the summarized entries' text
    except through entries that were not selected. *)
Theorem compaction_summary_on_model_failure (max : nat) (llm : string -> llm_call)
    (es : list ContextEntry) (cp : option string) :
  should_compact_context max es = true -> 2 <= length (compactable es cp) ->
  let ets := summarized es cp in
  let prompt := (summary_prompt_before ++ context_text_of ets ++ summary_prompt_after)%string in
  let kept := kept_entries (selection es cp) 0 es in
  let h := hd 0 (selection es cp) in
  let rebuilt (placeholder : string) :=
    firstn h kept ++
      mkEntry "compacted" "[HISTORICAL CONTEXT SUMMARY]" placeholder
        (timestamp (hd default_entry ets)) EmptyString false false 1
      :: skipn h kept ++ appended_entries cp (current_prompt_index es cp) in
  length ets = length (selection es cp) /\
  length kept + length ets = length es /\
  (llm prompt = PayloadFailed ->
   compact_context max llm es cp =
     rebuilt ("[Summary of " ++ str_nat (length ets) ++ " historical entries - LLM unavailable]")%string) /\
  (forall r, llm prompt = Sent r -> response_ok r = None ->
   compact_context max llm es cp =
     rebuilt ("[Summary of " ++ str_nat (length ets) ++ " historical entries - LLM failed]")%string).
Proof.
  intros Hs Hc ets prompt kept h rebuilt.
  destruct (compact_context_decomposition max llm es cp Hs Hc) as [_ [post [Hout Hkept]]].
  change (hd 0 (selection es cp)) with h in Hout, Hkept.
  assert (Hlen : length ets = length (selection es cp)) by (unfold ets, summarized; apply length_map).
  assert (Hh : h <= length es).
  { unfold h. destruct (selection_nonempty es cp Hc) as [k [rest Hsel]].
    rewrite Hsel. simpl. apply Nat.lt_le_incl, compactable_bounds with (cp := cp).
    apply selection_in_compactable. rewrite Hsel. now left. }
  assert (Hf : length (firstn h es) = h) by (rewrite length_firstn; lia).
  assert (Hpre : firstn h kept = firstn h es).
  { unfold kept. rewrite Hkept, firstn_app, Hf, Nat.sub_diag, firstn_O, app_nil_r.
    rewrite firstn_firstn, Nat.min_id. reflexivity. }
  assert (Hpost : skipn h kept = post).
  { unfold kept. rewrite Hkept, skipn_app, Hf, Nat.sub_diag, skipn_O.
    rewrite skipn_all2 by lia. reflexivity. }
  split; [exact Hlen|]. split.
  { pose proof (kept_selected_length (selection es cp) es 0) as Hl.
    rewrite (Permutation_length (selected_summarized_perm es cp)) in Hl. exact Hl. }
  destruct (summarized_nonempty es cp Hc) as [x [rest Hets]].
  unfold rebuilt. rewrite Hpre, Hpost, Hout.
  unfold summary_entry_of, create_context_summary.
  fold ets. unfold prompt, ets in *. rewrite Hets in *.
  split.
  - intros Hfail. rewrite Hfail. reflexivity.
  - intros r Hr Hok. rewrite Hr, Hok. reflexivity.
Qed.

Lemma compaction_summary_on_model_failure_witness :
  compact_context 4 (fun _ => PayloadFailed) small_entries None =
    firstn (hd 0 (selection small_entries None))
      (kept_entries (selection small_entries None) 0 small_entries) ++
    mkEntry "compacted" "[HISTORICAL CONTEXT SUMMARY]"
      "[Summary of 1 historical entries - LLM unavailable]" "t0" EmptyString false false 1
    :: skipn (hd 0 (selection small_entries None))
         (kept_entries (selection small_entries None) 0 small_entries) ++
       appended_entries None (current_prompt_index small_entries None).
Proof.
  refine (proj1 (proj2 (proj2 (compaction_summary_on_model_failure 4 (fun _ => PayloadFailed)
                                 small_entries None _ _))) _);
    vm_compute; [reflexivity | lia | reflexivity].
Defined.

End CompactionClaims.

(** * Session store round trip *)

Module StoreClaims.

Lemma store_get_set (k : string) (v : list dict) (d : store) :
  store_get k (store_set k v d) = Some v.
Proof.
  induction d as [|[k' v'] d IH]; simpl.
  - now rewrite String.eqb_refl.
  - destruct (String.eqb_spec k k') as [->|Hne]; simpl.
    + now rewrite String.eqb_refl.
    + apply String.eqb_neq in Hne. now rewrite Hne.
Qed.

(** C2 (as the code does it): saving a compacted entry and parsing the
    session back gives an entry of kind ["compacted"] with the same prompt,
    but with response ["Error occurred"] instead of the summary, and with
    compaction level 0 instead of 1. *)
Theorem compacted_entry_roundtrip (data : store) (k summary ts o : string)
    (p r : bool) :
  exists data',
    save_compacted_context (Some data)
      [mkEntry "compacted" "[HISTORICAL CONTEXT SUMMARY]" summary ts o p r 1] k = Some data' /\
    parse_context_entries data' k =
      [mkEntry "compacted" "[HISTORICAL CONTEXT SUMMARY]" "Error occurred" ts EmptyString
         false true 0].
Proof.
  eexists. split; [reflexivity|].
  unfold parse_context_entries. rewrite store_get_set. reflexivity.
Qed.

End StoreClaims.

(** * Task handler *)

(** * Plan phase facts *)

Module HandlerFacts.

Lemma plan_loop_trace_head allow input replies ctx a st :
  exists tr, snd (plan_loop allow input replies ctx a st) = (S a, ctx) :: tr.
Proof.
  destruct replies as [|reply rest]; cbn [plan_loop].
  - eexists; reflexivity.
  - lazymatch goal with
    | |- context [match ?m with pair _ _ => _ end] => destruct m as [[? ?] ?]
    end.
    eexists; reflexivity.
Qed.

Lemma prefix_refl s : prefix s s = true.
Proof.
  induction s as [|c s IH]; simpl; [reflexivity|].
  destruct (Ascii.ascii_dec c c); [exact IH | contradiction].
Qed.

Lemma prefix_app sub a b : prefix sub a = true -> prefix sub (a ++ b) = true.
Proof.
  revert a; induction sub as [|c sub IH]; intros a; [intros _; destruct (a ++ b); reflexivity|].
  destruct a as [|c' a]; simpl; [discriminate|].
  destruct (Ascii.ascii_dec c c'); [apply IH | discriminate].
Qed.

Lemma contains_app_l sub a b : contains sub a = true -> contains sub (a ++ b) = true.
Proof.
  induction a as [|c a IH]; simpl.
  - intros H. destruct sub; [destruct b; reflexivity | discriminate H].
  - intros H. apply orb_true_iff in H as [H|H]; apply orb_true_iff.
    + left. exact (prefix_app sub (String c a) b H).
    + right. exact (IH H).
Qed.

Lemma contains_app_r sub a b : contains sub b = true -> contains sub (a ++ b) = true.
Proof.
  induction a as [|c a IH]; simpl; [easy|].
  intros H. apply orb_true_iff. right. exact (IH H).
Qed.

Lemma contains_refl s : contains s s = true.
Proof.
  destruct s as [|c s]; [reflexivity|]. simpl.
  destruct (Ascii.ascii_dec c c) as [_|n]; [rewrite prefix_refl; reflexivity | contradiction].
Qed.

Lemma contains_concat sub sep l x :
  In x l -> contains sub x = true -> contains sub (String.concat sep l) = true.
Proof.
  induction l as [|y l IH]; [intros []|].
  intros [->|Hin] Hx; destruct l as [|z l].
  - exact Hx.
  - apply contains_app_l, Hx.
  - destruct Hin.
  - apply contains_app_r, contains_app_r, IH; assumption.
Qed.

(** [_handle_command_suggestion] returns [CANCELLED] exactly in gremlin
    mode, for a command other than [report_task_completion] that the
    permission manager blocks and for which the user chooses "cancel" (2);
    the state is then left as it was. *)
Lemma handle_command_suggestion_cancelled opm check ask exec input command st :
  (fst (handle_command_suggestion opm check ask exec input command st) = CANCELLED <->
   command <> "report_task_completion" /\ opm = "gremlin" /\
   fst (check command opm) = false /\ fst (ask command) = 2) /\
  (fst (handle_command_suggestion opm check ask exec input command st) = CANCELLED ->
   snd (handle_command_suggestion opm check ask exec input command st) = st).
Proof.
  unfold handle_command_suggestion.
  destruct (String.eqb_spec command "report_task_completion") as [->|Hr].
  { split; [split; [discriminate | intros [H _]; contradiction H; reflexivity] | discriminate]. }
  destruct (check command opm) as [allowed reason]. cbn [fst].
  destruct (String.eqb_spec opm "normal") as [->|Hn].
  { destruct allowed; cbn; [destruct (String.eqb (lower input) "y")|]; cbn;
      (split; [split; [discriminate | intros (_ & H & _); discriminate] | discriminate]). }
  destruct (String.eqb_spec opm "gremlin") as [->|Hg].
  - destruct allowed; cbn.
    { split; [split; [discriminate | intros (_ & _ & H & _); discriminate] | discriminate]. }
    destruct (ask command) as [d pr]. cbn [fst].
    destruct d as [|[|[|d]]]; cbn.
    + split; [split; [discriminate | intros (_ & _ & _ & H); discriminate] | discriminate].
    + split; [split; [discriminate | intros (_ & _ & _ & H); discriminate] | discriminate].
    + split; [split; [intros _; auto | reflexivity] | reflexivity].
    + split; [split; [discriminate | intros (_ & _ & _ & H); discriminate] | discriminate].
  - destruct allowed; cbn;
      [|destruct (String.eqb_spec opm "goblin") as [->|Hb]; cbn];
      rewrite ?(proj2 (String.eqb_neq _ _) Hn), ?(proj2 (String.eqb_neq _ _) Hg); cbn;
      (split; [split; [discriminate | intros (_ & H & _); contradiction] | discriminate]).
Qed.

End HandlerFacts.


Module HandlerClaims.

Import HandlerFacts.

(** C1 (as stated): declining the confirmation of an allowed command in
    normal mode does not cancel the task. *)
Lemma decline_confirmation_not_cancelled :
  handle_command_suggestion "normal" (fun _ _ => (true, "allowed")) (fun _ => (2, "cancel"))
    (fun _ => mkCommandResult 0 "out") "n" "ls" TaskState_new
  = (IN_PROGRESS, set_action TaskState_new "Command 'ls' cancelled by user"
                    "User cancelled at confirmation") /\
  fst (handle_command_suggestion "normal" (fun _ _ => (true, "allowed"))
         (fun _ => (2, "cancel")) (fun _ => mkCommandResult 0 "out") "n" "ls" TaskState_new)
    <> CANCELLED.
Proof. split; [vm_compute; reflexivity | vm_compute; discriminate]. Qed.

(** C1 (amended): in normal mode, when the user answers anything but "y"
    (case-insensitively) at the confirmation of an allowed command, the
    command is not run, the action is recorded as cancelled by the user,
    and the status stays [IN_PROGRESS].  In every mode,
    [_handle_command_suggestion] returns [CANCELLED] exactly when the mode
    is gremlin, the permission manager blocked the command (other than
    [report_task_completion]) and the user chose "cancel" (2) at the
    permission prompt for it. *)
Theorem decline_confirmation_records_action
    (check : string -> string -> bool * string) (ask : string -> nat * string)
    (exec : string -> CommandResult) (input command reason : string) (st : TaskState) :
  command <> "report_task_completion" ->
  check command "normal" = (true, reason) ->
  lower input <> "y" ->
  handle_command_suggestion "normal" check ask exec input command st =
    (IN_PROGRESS, set_action st ("Command '" ++ command ++ "' cancelled by user")
                    "User cancelled at confirmation") /\
  (forall (opm : string) (check' : string -> string -> bool * string)
          (ask' : string -> nat * string) (exec' : string -> CommandResult)
          (input' command' : string) (st' : TaskState),
     fst (handle_command_suggestion opm check' ask' exec' input' command' st') = CANCELLED <->
     command' <> "report_task_completion" /\ opm = "gremlin" /\
     fst (check' command' opm) = false /\ fst (ask' command') = 2).
Proof.
  intros Hc Hchk Hy. split.
  - unfold handle_command_suggestion.
    apply String.eqb_neq in Hc. rewrite Hc, Hchk.
    apply String.eqb_neq in Hy. cbn -[lower]. rewrite Hy. reflexivity.
  - intros. apply handle_command_suggestion_cancelled.
Qed.

Lemma decline_confirmation_records_action_witness :
  handle_command_suggestion "normal" (fun _ _ => (true, "allowed")) (fun _ => (2, "cancel"))
    (fun _ => mkCommandResult 0 "out") "N" "ls" TaskState_new
  = (IN_PROGRESS, set_action TaskState_new "Command 'ls' cancelled by user"
                    "User cancelled at confirmation").
Proof.
  refine (proj1 (decline_confirmation_records_action (fun _ _ => (true, "allowed"))
                   (fun _ => (2, "cancel")) (fun _ => mkCommandResult 0 "out") "N" "ls"
                   "allowed" TaskState_new _ _ _));
    [discriminate | reflexivity | vm_compute; discriminate].
Defined.

(** C4: decision routing of the evaluation phase.  [CONTINUE_PLAN] keeps
    [IN_PROGRESS] and increments [step_index] by one; [TASK_COMPLETE] gives
    [COMPLETED] and [TASK_FAILED] gives [FAILED] whatever the state; any
    decision type without a branch, such as the type of
    "FROBNICATE: do a thing", gives [FAILED]. *)
Theorem evaluation_decision_routing (allow : bool) (input : string) (st : TaskState)
    (message original_prompt decision_type : string) :
  let run d := process_evaluation_decision allow input d message st original_prompt in
  fst (fst (run "CONTINUE_PLAN")) = IN_PROGRESS /\
  step_index (snd (run "CONTINUE_PLAN")) = step_index st + 1 /\
  fst (fst (run "TASK_COMPLETE")) = COMPLETED /\
  fst (fst (run "TASK_FAILED")) = FAILED /\
  (~ In decision_type known_decision_types -> fst (fst (run decision_type)) = FAILED) /\
  fst (fst (run (fst (extract_decision_type_and_message "FROBNICATE: do a thing"))))
    = FAILED.
Proof.
  intros run. repeat split.
  - simpl. lia.
  - intros Hnot. unfold run, process_evaluation_decision.
    destruct (String.eqb_spec decision_type "TASK_COMPLETE") as [->|_];
      [exfalso; apply Hnot; simpl; tauto|].
    destruct (String.eqb_spec decision_type "TASK_FAILED") as [->|_]; [reflexivity|].
    destruct (String.eqb_spec decision_type "CONTINUE_PLAN") as [->|_];
      [exfalso; apply Hnot; simpl; tauto|].
    destruct (String.eqb_spec decision_type "REVISE_PLAN") as [->|_];
      [exfalso; apply Hnot; simpl; tauto|].
    destruct (String.eqb_spec decision_type "CLARIFY_USER") as [->|_];
      [exfalso; apply Hnot; simpl; tauto|].
    destruct (String.eqb_spec decision_type "VERIFY_ACTION") as [->|_];
      [exfalso; apply Hnot; simpl; tauto|].
    reflexivity.
Qed.

Lemma evaluation_decision_routing_witness :
  ~ In "FROBNICATE" known_decision_types /\
  fst (fst (process_evaluation_decision true "yes" "FROBNICATE" "do a thing"
              TaskState_new "task")) = FAILED.
Proof.
  assert (Hn : ~ In "FROBNICATE" known_decision_types) by (simpl; intuition discriminate).
  split; [exact Hn|].
  destruct (evaluation_decision_routing true "yes" TaskState_new "do a thing" "task"
              "FROBNICATE") as (_ & _ & _ & _ & Hunk & _).
  exact (Hunk Hn).
Defined.

(** C10 (as stated): a response with a [<checklist>] block and no
    [<instruction>] block whose decision asks the user a question, with
    clarifying questions allowed, ends the phase at [IN_PROGRESS] after one
    model call: no second call is issued. *)
Lemma plan_clarify_preempts_retry :
  let r := "<decision>CLARIFY_USER: which directory?</decision><checklist>list files</checklist>" in
  contains "<checklist>" r = true /\ parse_llm_instruction r = EmptyString /\
  fst (fst (execute_plan_phase true "src" [Sent (Some r)] "ctx" TaskState_new))
    = Finished IN_PROGRESS /\
  snd (execute_plan_phase true "src" [Sent (Some r)] "ctx" TaskState_new) = [(1, "ctx")].
Proof. vm_compute. repeat split; reflexivity. Qed.

(** C10 (amended): a response that contains a [<checklist>] block, has no
    [<instruction>] block and whose decision does not start with
    [CLARIFY_USER:] is rejected; the next model call is attempt 2, and its
    context names the missing instruction block.  A response whose decision
    starts with [CLARIFY_USER:] is handled first, whatever its blocks: with
    clarifying questions allowed, the phase ends at [IN_PROGRESS] after
    that single call, the answer read recorded as the user's clarification. *)
Theorem plan_missing_instruction_retries (allow : bool) (input r ctx : string)
    (rest : list llm_call) (st : TaskState) :
  (contains "<checklist>" r = true ->
   parse_llm_instruction r = EmptyString ->
   prefix "CLARIFY_USER:" (parse_llm_decision r) = false ->
   exists ctx' tr,
     snd (execute_plan_phase allow input (Sent (Some r) :: rest) ctx st) =
       (1, ctx) :: (2, ctx') :: tr /\
     contains missing_instruction_message ctx' = true) /\
  (allow = true ->
   prefix "CLARIFY_USER:" (parse_llm_decision r) = true ->
   execute_plan_phase allow input (Sent (Some r) :: rest) ctx st =
     (Finished IN_PROGRESS,
      set_current_plan (set_last_eval_decision (set_user_clarification st input)
                          "PLANNER_CLARIFY") EmptyString,
      [(1, ctx)])).
Proof.
  split.
  - intros Hc Hi Hd.
    assert (Ht : truthy r = true) by (destruct r; [discriminate | reflexivity]).
    unfold execute_plan_phase. cbn [plan_loop]. unfold response_ok. rewrite Ht.
    cbv zeta iota. rewrite Hd.
    cbn [current_plan current_instruction set_definition_of_done set_planner_summary
         set_current_instruction set_current_plan].
    rewrite Hi. change (truthy EmptyString) with false. rewrite andb_false_r.
    lazymatch goal with
    | |- context [plan_loop ?al ?inp ?rs ?c 1 ?s] =>
        destruct (plan_loop_trace_head al inp rs c 1 s) as [tr Htr];
        destruct (plan_loop al inp rs c 1 s) as [[res st'] trace]
    end.
    cbn [snd] in Htr. subst trace.
    eexists. exists tr. split; [reflexivity|].
    unfold plan_correction.
    eapply (contains_concat _ _ _ ("<details>" ++ (_ ++ "</details>")));
      [right; right; right; right; left; reflexivity|].
    apply contains_app_r, contains_app_l.
    apply (contains_concat _ _ _ missing_instruction_message); [|apply contains_refl].
    destruct (truthy (parse_llm_plan r)); simpl; tauto.
  - intros -> Hd.
    assert (Ht : truthy r = true)
      by (destruct r; [vm_compute in Hd; discriminate | reflexivity]).
    unfold execute_plan_phase. cbn [plan_loop]. unfold response_ok. rewrite Ht.
    cbv zeta iota. rewrite Hd. reflexivity.
Qed.

Lemma plan_missing_instruction_retries_witness :
  let r := "<checklist>1. list files</checklist>" in
  let q := "<decision>CLARIFY_USER: which directory?</decision><checklist>list files</checklist>" in
  contains "<checklist>" r = true /\ parse_llm_instruction r = EmptyString /\
  prefix "CLARIFY_USER:" (parse_llm_decision r) = false /\
  (exists ctx' tr,
     snd (execute_plan_phase true "src" [Sent (Some r)] "ctx" TaskState_new) =
       (1, "ctx") :: (2, ctx') :: tr /\
     contains missing_instruction_message ctx' = true) /\
  prefix "CLARIFY_USER:" (parse_llm_decision q) = true /\
  execute_plan_phase true "src" [Sent (Some q)] "ctx" TaskState_new =
    (Finished IN_PROGRESS,
     set_current_plan (set_last_eval_decision (set_user_clarification TaskState_new "src")
                         "PLANNER_CLARIFY") EmptyString,
     [(1, "ctx")]).
Proof.
  intros r q.
  assert (Hc : contains "<checklist>" r = true) by (vm_compute; reflexivity).
  assert (Hi : parse_llm_instruction r = EmptyString) by (vm_compute; reflexivity).
  assert (Hd : prefix "CLARIFY_USER:" (parse_llm_decision r) = false) by (vm_compute; reflexivity).
  assert (Hq : prefix "CLARIFY_USER:" (parse_llm_decision q) = true) by (vm_compute; reflexivity).
  split; [exact Hc|]. split; [exact Hi|]. split; [exact Hd|].
  split; [exact (proj1 (plan_missing_instruction_retries true "src" r "ctx" [] TaskState_new)
                   Hc Hi Hd)|].
  split; [exact Hq|].
  exact (proj2 (plan_missing_instruction_retries true "src" q "ctx" [] TaskState_new)
           eq_refl Hq).
Defined.

End HandlerClaims.

(** ** Further properties of the compactor, the store, the parsers and the handler *)

Module ParserExtras.
Import HandlerFacts.
Local Open Scope string_scope.
Lemma str_app_assoc (a b c : string) : (a ++ b) ++ c = a ++ (b ++ c).
Proof. induction a as [|x a IH]; simpl; [reflexivity | now rewrite IH]. Qed.

Lemma str_length_app (a b : string) : String.length (a ++ b) = String.length a + String.length b.
Proof. induction a as [|x a IH]; simpl; [reflexivity | now rewrite IH]. Qed.

Lemma substring_app_l (a b : string) : substring 0 (String.length a) (a ++ b) = a.
Proof. induction a as [|x a IH]; simpl; [now destruct b | now rewrite IH]. Qed.

Lemma substring_app_r (a b : string) :
  substring (String.length a) (String.length b) (a ++ b) = b.
Proof.
  induction a as [|x a IH]; simpl; [|exact IH].
  induction b as [|y b IHb]; simpl; [reflexivity | now rewrite IHb].
Qed.

Lemma contains_cons_false (sub : string) (c : ascii) (s : string) :
  contains sub (String c s) = false -> prefix sub (String c s) = false /\ contains sub s = false.
Proof. simpl. intros H. apply orb_false_iff in H. exact H. Qed.

Lemma index_cons0 (sub : string) (c : ascii) (s : string) :
  index 0 sub (String c s) =
  if prefix sub (String c s) then Some 0 else option_map S (index 0 sub s).
Proof. simpl. destruct (prefix sub (String c s)); [reflexivity|]. now destruct (index 0 sub s). Qed.

Lemma prefix_lt_other (x : string) (c : ascii) (s : string) :
  c <> "<"%char -> prefix (String "<" x) (String c s) = false.
Proof.
  intros H.
  change (prefix (String "<" x) (String c s)) with (if ascii_dec "<" c then prefix x s else false).
  destruct (ascii_dec "<" c); [congruence | reflexivity].
Qed.

Lemma contains_char_cons (d c : ascii) (s : string) :
  contains (String d EmptyString) (String c s) = false -> c <> d /\ contains (String d EmptyString) s = false.
Proof.
  intros H. apply contains_cons_false in H as [Hp Hc]. split; [|exact Hc].
  intros Heq. subst c. change (prefix (String d EmptyString) (String d s))
    with (if ascii_dec d d then prefix EmptyString s else false) in Hp.
  destruct (ascii_dec d d); [|congruence]. destruct s; discriminate.
Qed.

Lemma contains_lt_cons (c : ascii) (s : string) :
  contains "<" (String c s) = false -> c <> "<"%char /\ contains "<" s = false.
Proof. apply contains_char_cons. Qed.

(** The first ['<'] of [a ++ String "<" x ++ b] is where [x] begins when
    [a] has none. *)
Lemma index_after_lt_free (a x b : string) :
  contains "<" a = false ->
  index 0 (String "<" x) (a ++ String "<" x ++ b) = Some (String.length a).
Proof.
  induction a as [|c a IH]; intros H.
  - pose proof (prefix_app (String "<" x) (String "<" x) b (prefix_refl _)) as Hp.
    simpl in Hp |- *. rewrite Hp. reflexivity.
  - apply contains_lt_cons in H as [Hne Hc].
    change ((String c a ++ String "<" x ++ b)) with (String c (a ++ String "<" x ++ b)).
    rewrite index_cons0, prefix_lt_other by exact Hne.
    rewrite (IH Hc). reflexivity.
Qed.

(** The part of [s] after its first [n] characters, as [parse_tag] takes it. *)
Lemma substring_suffix (a r : string) :
  substring (String.length a) (String.length (a ++ r) - String.length a) (a ++ r) = r.
Proof.
  rewrite str_length_app. replace (String.length a + String.length r - String.length a)
    with (String.length r) by lia.
  apply substring_app_r.
Qed.

(** [parse_llm_plan], [parse_llm_instruction], [parse_llm_decision],
    [parse_llm_summary], [parse_definition_of_done] and
    [parse_suggested_command]: when no [<] occurs before the opening tag or
    inside the block, the parsers return the stripped text between the tags,
    whatever follows the closing tag. *)
Theorem parse_tag_block (tag pre body post : string) :
  contains "<" pre = false -> contains "<" body = false ->
  parse_tag tag (pre ++ ("<" ++ tag ++ ">") ++ body ++ ("</" ++ tag ++ ">") ++ post) = strip body
  /\ parse_suggested_command (pre ++ "<command>" ++ body ++ "</command>" ++ post)
     = Some (strip body).
Proof.
  intros Hpre Hbody. split.
  - unfold parse_tag. cbv zeta.
    change ("<" ++ tag ++ ">") with (String "<" (tag ++ ">")).
    change ("</" ++ tag ++ ">") with (String "<" ("/" ++ tag ++ ">")).
    set (R := body ++ String "<" ("/" ++ tag ++ ">") ++ post).
    rewrite index_after_lt_free by exact Hpre.
    rewrite <- (str_app_assoc pre (String "<" (tag ++ ">")) R).
    rewrite <- str_length_app, substring_suffix.
    unfold R. rewrite index_after_lt_free by exact Hbody.
    rewrite substring_app_l. reflexivity.
  - unfold parse_suggested_command. cbv zeta.
    change "<command>" with (String "<" "command>").
    change "</command>" with (String "<" "/command>").
    set (R := body ++ String "<" "/command>" ++ post).
    rewrite index_after_lt_free by exact Hpre.
    rewrite <- (str_app_assoc pre (String "<" "command>") R).
    rewrite <- str_length_app, substring_suffix.
    unfold R. rewrite index_after_lt_free by exact Hbody.
    rewrite substring_app_l. reflexivity.
Qed.

Lemma split_colon_app (t m : string) :
  contains ":" t = false -> split_colon (t ++ String ":" m) = Some (t, m).
Proof.
  induction t as [|c t IH]; intros H; [reflexivity|].
  apply contains_char_cons in H as [Hne Hc].
  simpl. apply Ascii.eqb_neq in Hne. rewrite Hne, (IH Hc). reflexivity.
Qed.

Lemma split_colon_none (s : string) : contains ":" s = false -> split_colon s = None.
Proof.
  induction s as [|c s IH]; intros H; [reflexivity|].
  apply contains_char_cons in H as [Hne Hc].
  simpl. apply Ascii.eqb_neq in Hne. rewrite Hne, (IH Hc). reflexivity.
Qed.

(** [extract_decision_type_and_message] splits at the first colon: the type
    is the stripped text before it, the message the stripped rest (which may
    contain further colons); without a colon the whole stripped text is the
    type and the message is empty. *)
Theorem extract_decision_first_colon (t m s : string) :
  contains ":" t = false ->
  extract_decision_type_and_message (t ++ ":" ++ m) = (strip t, strip m) /\
  (contains ":" s = false -> extract_decision_type_and_message s = (strip s, EmptyString)).
Proof.
  intros Ht. split.
  - unfold extract_decision_type_and_message.
    change (t ++ ":" ++ m) with (t ++ String ":" m).
    replace (truthy (t ++ String ":" m)) with true by (destruct t; reflexivity).
    simpl negb. cbv iota. rewrite (split_colon_app t m Ht). reflexivity.
  - intros Hs. unfold extract_decision_type_and_message.
    rewrite (split_colon_none s Hs). destruct s; reflexivity.
Qed.

Lemma parse_tag_block_witness :
  contains "<" "ok " = false /\ contains "<" "ls -l" = false /\
  parse_tag "decision" ("ok " ++ ("<" ++ "decision" ++ ">") ++ "ls -l"
                        ++ ("</" ++ "decision" ++ ">") ++ " end") = strip "ls -l" /\
  parse_suggested_command ("ok " ++ "<command>" ++ "ls -l" ++ "</command>" ++ " end")
    = Some (strip "ls -l").
Proof.
  assert (H1 : contains "<" "ok " = false) by reflexivity.
  assert (H2 : contains "<" "ls -l" = false) by reflexivity.
  split; [exact H1|]. split; [exact H2|].
  exact (parse_tag_block "decision" "ok " "ls -l" " end" H1 H2).
Defined.

Lemma extract_decision_first_colon_witness :
  contains ":" "CONTINUE_PLAN " = false /\
  extract_decision_type_and_message ("CONTINUE_PLAN " ++ ":" ++ " next: step 2")
    = (strip "CONTINUE_PLAN ", strip " next: step 2") /\
  (contains ":" "TASK_COMPLETE" = false ->
   extract_decision_type_and_message "TASK_COMPLETE" = (strip "TASK_COMPLETE", EmptyString)).
Proof.
  assert (H : contains ":" "CONTINUE_PLAN " = false) by reflexivity.
  split; [exact H|].
  exact (extract_decision_first_colon "CONTINUE_PLAN " " next: step 2" "TASK_COMPLETE" H).
Defined.

End ParserExtras.
Module StoreExtras.
Import CompactionFacts CompactionShape CompactionCount StoreClaims HandlerFacts.
Local Open Scope string_scope.
Local Open Scope list_scope.
Lemma last_index_where_shift (f : ContextEntry -> bool) (es : list ContextEntry) (i : nat) :
  last_index_where f (S i) es = option_map S (last_index_where f i es).
Proof.
  revert i; induction es as [|e es IH]; intros i; [reflexivity|].
  simpl. rewrite (IH (S i)), (IH i).
  destruct (last_index_where f i es); simpl; [reflexivity|].
  destruct (f e); reflexivity.
Qed.

Lemma last_index_where_last (f : ContextEntry -> bool) (es : list ContextEntry) :
  (forall j, last_index_where f 0 es = Some j ->
     j < length es /\ f (nth j es default_entry) = true /\
     forall k, j < k < length es -> f (nth k es default_entry) = false) /\
  (last_index_where f 0 es = None -> forall k, k < length es -> f (nth k es default_entry) = false).
Proof.
  induction es as [|e es [IH1 IH2]]; simpl.
  - split; [discriminate | intros _ k Hk; lia].
  - rewrite last_index_where_shift.
    destruct (last_index_where f 0 es) as [j|] eqn:E; simpl.
    + split; [|discriminate]. intros j' Hj. injection Hj as <-.
      destruct (IH1 j eq_refl) as (Hlt & Hf & Hlater). split; [lia|]. split; [exact Hf|].
      intros [|k] Hk; [lia|]. apply Hlater. lia.
    + destruct (f e) eqn:Fe.
      * split; [|discriminate]. intros j Hj. injection Hj as <-.
        split; [lia|]. split; [exact Fe|]. intros [|k] Hk; [lia|]. apply IH2; [reflexivity|lia].
      * split; [discriminate|]. intros _ [|k] Hk; [exact Fe|]. apply IH2; [reflexivity|lia].
Qed.

Lemma last_index_where_none (f : ContextEntry -> bool) (es : list ContextEntry) (i : nat) :
  (forall e, In e es -> f e = false) -> last_index_where f i es = None.
Proof.
  revert i; induction es as [|e es IH]; intros i H; [reflexivity|].
  simpl. rewrite IH by (intros x Hx; apply H; right; exact Hx).
  rewrite (H e (or_introl eq_refl)). reflexivity.
Qed.

(** The indices [compact_context] preserves are the last matches: the
    latest plan index is the last entry with [is_plan] (none when there is
    no plan entry), and the current prompt index is the last entry whose
    prompt contains the current prompt (none when no entry's prompt
    contains it, and none when the current prompt is missing or empty). *)
Theorem preserved_indices_are_last (es : list ContextEntry) (s : string) :
  (forall j, latest_plan_index es = Some j ->
     j < length es /\ is_plan (nth j es default_entry) = true /\
     forall k, j < k < length es -> is_plan (nth k es default_entry) = false) /\
  (latest_plan_index es = None ->
     forall k, k < length es -> is_plan (nth k es default_entry) = false) /\
  (truthy s = true -> forall j, current_prompt_index es (Some s) = Some j ->
     j < length es /\ contains s (user_prompt (nth j es default_entry)) = true /\
     forall k, j < k < length es -> contains s (user_prompt (nth k es default_entry)) = false) /\
  (truthy s = true -> current_prompt_index es (Some s) = None ->
     forall k, k < length es -> contains s (user_prompt (nth k es default_entry)) = false) /\
  (truthy s = false -> current_prompt_index es (Some s) = None) /\
  current_prompt_index es None = None.
Proof.
  destruct (last_index_where_last is_plan es) as [H1 H2].
  destruct (last_index_where_last (fun e => contains s (user_prompt e)) es) as [H3 H4].
  split; [exact H1|]. split; [exact H2|].
  unfold current_prompt_index.
  split; [intros Hs; rewrite Hs; exact H3|].
  split; [intros Hs; rewrite Hs; exact H4|].
  split; [intros Hs; rewrite Hs; reflexivity | reflexivity].
Qed.

Lemma should_compact_nil (max : nat) : should_compact_context max [] = false.
Proof. unfold should_compact_context. apply Nat.ltb_ge. change (total_tokens []) with 0. lia. Qed.

(** [should_compact_context] is false on no entries, and adding entries
    never turns it from true to false. *)
Theorem should_compact_monotone (max : nat) (es more : list ContextEntry) :
  should_compact_context max [] = false /\
  (should_compact_context max es = true -> should_compact_context max (es ++ more) = true).
Proof.
  split; [apply should_compact_nil|].
  unfold should_compact_context. rewrite !Nat.ltb_lt, total_tokens_app. lia.
Qed.

(** When every model call fails (no payload, or no or empty response),
    [compact_context_segment] returns the segment's text itself, which
    holds every entry's prompt and response. *)
Theorem compact_context_segment_failure_keeps_text (llm : string -> llm_call)
    (entries : list ContextEntry) (level : nat) :
  (forall p, llm p = PayloadFailed \/ exists r, llm p = Sent r /\ response_ok r = None) ->
  compact_context_segment llm entries level = context_text_of entries /\
  forall e, In e entries ->
    contains (user_prompt e) (compact_context_segment llm entries level) = true /\
    contains (llm_response e) (compact_context_segment llm entries level) = true.
Proof.
  intros Hllm.
  assert (Heq : compact_context_segment llm entries level = context_text_of entries).
  { unfold compact_context_segment. destruct entries as [|e0 es0]; [reflexivity|].
    cbv zeta.
    match goal with |- match llm ?p with _ => _ end = _ =>
      destruct (Hllm p) as [-> | [r [-> Hr]]]; [reflexivity | rewrite Hr; reflexivity] end. }
  split; [exact Heq|]. intros e He. rewrite Heq. unfold context_text_of. split.
  - apply (contains_concat _ _ _ ("User: " ++ user_prompt e)).
    + apply in_flat_map. exists e. split; [exact He | left; reflexivity].
    + apply contains_app_r, contains_refl.
  - apply (contains_concat _ _ _ ("Assistant: " ++ llm_response e)).
    + apply in_flat_map. exists e. split; [exact He | right; left; reflexivity].
    + apply contains_app_r, contains_refl.
Qed.

Lemma filter_all_true {A} (f : A -> bool) (l : list A) :
  (forall x, In x l -> f x = true) -> filter f l = l.
Proof.
  induction l as [|a l IH]; intros H; [reflexivity|]. simpl.
  rewrite (H a (or_introl eq_refl)), IH; [reflexivity|]. intros x Hx; apply H; right; exact Hx.
Qed.

Lemma filter_neq_length (j : nat) (l : list nat) :
  NoDup l -> length l <= S (length (filter (fun i => negb (Nat.eqb i j)) l)).
Proof.
  induction l as [|a l IH]; intros Hnd; simpl; [lia|].
  inversion Hnd as [|? ? Hnot Hnd']; subst.
  destruct (Nat.eqb_spec a j) as [->|Hne]; simpl.
  - rewrite filter_all_true; [lia|].
    intros x Hx. destruct (Nat.eqb_spec x j) as [->|]; [contradiction | reflexivity].
  - specialize (IH Hnd'). lia.
Qed.

Lemma compactable_unmatched_length (es : list ContextEntry) (s : string) :
  current_prompt_index es (Some s) = None ->
  length es <= S (length (compactable es (Some s))).
Proof.
  intros Hc. unfold compactable, compactable_indices. rewrite Hc.
  destruct (latest_plan_index es) as [j|].
  - rewrite (filter_ext _ (fun i => negb (Nat.eqb i j))) by (intros i; simpl; now rewrite andb_true_r).
    rewrite <- (length_seq (length es) 0) at 1. apply filter_neq_length, seq_NoDup.
  - rewrite filter_all_true by reflexivity. rewrite length_seq. lia.
Qed.

(** When compaction runs on at least three entries and no entry's prompt
    contains the (non-empty) current prompt, [compact_context] appends a
    [current_prompt] entry for it as the last entry. *)
Theorem compact_context_appends_new_prompt (max : nat) (llm : string -> llm_call)
    (es : list ContextEntry) (s : string) :
  should_compact_context max es = true -> 3 <= length es -> truthy s = true ->
  (forall e, In e es -> contains s (user_prompt e) = false) ->
  exists pre, compact_context max llm es (Some s) =
    pre ++ [ContextEntry_new "current_prompt" s "[CURRENT TASK]" EmptyString].
Proof.
  intros Hs Hlen Ht Hno.
  assert (Hc : current_prompt_index es (Some s) = None).
  { unfold current_prompt_index. rewrite Ht. apply last_index_where_none. exact Hno. }
  pose proof (compactable_unmatched_length es s Hc) as Hl.
  rewrite compact_context_proceeds by (assumption || lia).
  rewrite Hc. unfold appended_entries. rewrite Ht. eexists. reflexivity.
Qed.

Lemma store_get_set_other (k k' : string) (v : list dict) (d : store) :
  k' <> k -> store_get k' (store_set k v d) = store_get k' d.
Proof.
  intros Hne. induction d as [|[k0 v0] d IH]; simpl.
  - apply String.eqb_neq in Hne. now rewrite Hne.
  - destruct (String.eqb_spec k k0) as [->|Hk]; simpl.
    + apply String.eqb_neq in Hne. now rewrite Hne.
    + destruct (String.eqb k' k0); [reflexivity | exact IH].
Qed.


(** [check_and_compact_context]: with no context file it returns [True],
    with a file it cannot load [False], writing nothing.  On a loaded file
    whose session does not need compaction it returns [True] and writes
    nothing.  When the session needs compaction, it returns [True] exactly
    when the save loads the file again and its write succeeds; the file then
    holds the compacted session under its key, the other sessions as
    reloaded. *)
Theorem check_and_compact_context_readable (max : nat) (llm : string -> llm_call)
    (data : store) (reread : option store) (dump_ok : bool) (k : string)
    (cur : option string) :
  let entries := parse_context_entries data k in
  check_and_compact_context max llm NoFile reread dump_ok k cur = (true, None) /\
  check_and_compact_context max llm Unreadable reread dump_ok k cur = (false, None) /\
  (should_compact_context max entries = false ->
     check_and_compact_context max llm (Readable data) reread dump_ok k cur = (true, None)) /\
  (should_compact_context max entries = true ->
     (fst (check_and_compact_context max llm (Readable data) reread dump_ok k cur) = true <->
      reread <> None /\ dump_ok = true) /\
     (fst (check_and_compact_context max llm (Readable data) reread dump_ok k cur) = false ->
      snd (check_and_compact_context max llm (Readable data) reread dump_ok k cur) = None) /\
     forall loaded, reread = Some loaded -> dump_ok = true ->
     exists written,
       snd (check_and_compact_context max llm (Readable data) reread dump_ok k cur) = Some written /\
       store_get k written = Some (map entry_to_json (compact_context max llm entries cur)) /\
       forall k', k' <> k -> store_get k' written = store_get k' loaded).
Proof.
  intros entries. split; [reflexivity|]. split; [reflexivity|].
  unfold check_and_compact_context. fold entries.
  destruct entries as [|e es] eqn:E.
  - split; [reflexivity|].
    intros H. rewrite should_compact_nil in H. discriminate.
  - rewrite <- E. destruct (should_compact_context max entries) eqn:S; simpl.
    + split; [discriminate|]. intros _.
      unfold save_compacted_context_result, save_compacted_context.
      destruct reread as [loaded|]; [destruct dump_ok|]; simpl.
      * split; [split; [intros _; split; [discriminate | reflexivity] | reflexivity]|].
        split; [discriminate|]. intros l' Hl _. injection Hl as <-. eexists. split; [reflexivity|].
        split; [apply store_get_set | intros k' Hne; apply store_get_set_other, Hne].
      * split; [split; [discriminate | intros [_ H]; discriminate]|].
        split; [reflexivity|]. intros ? ? H; discriminate.
      * split; [split; [discriminate | intros [H _]; contradiction]|].
        split; [reflexivity|]. intros l' H; discriminate.
    + split; [reflexivity | discriminate].
Qed.

Lemma parse_indexed_length (s : nat) (l : list dict) :
  length (map (fun '(i, e) => parse_entry i e) (combine (seq s (length l)) l)) = length l.
Proof. rewrite length_map, length_combine, length_seq. lia. Qed.

Lemma parse_indexed_nth (s : nat) (l : list dict) (i : nat) :
  i < length l ->
  nth i (map (fun '(i, e) => parse_entry i e) (combine (seq s (length l)) l)) default_entry
  = parse_entry (s + i) (nth i l []).
Proof.
  revert s i; induction l as [|x l IH]; intros s i Hi; simpl in Hi; [lia|].
  destruct i as [|i]; simpl.
  - now rewrite Nat.add_0_r.
  - rewrite IH by lia. now rewrite Nat.add_succ_r.
Qed.

(** [parse_context_entries]: a missing session gives no entries; otherwise
    one entry per stored object, the first marked as the original request,
    every one at compaction level 0 with an empty [original_user_prompt]. *)
Theorem parse_context_entries_shape (data : store) (k : string) :
  (store_get k data = None -> parse_context_entries data k = []) /\
  forall l, store_get k data = Some l ->
    length (parse_context_entries data k) = length l /\
    forall i, i < length l ->
      is_original_request (nth i (parse_context_entries data k) default_entry) = (i =? 0)%nat /\
      compaction_level (nth i (parse_context_entries data k) default_entry) = 0 /\
      original_user_prompt (nth i (parse_context_entries data k) default_entry) = EmptyString.
Proof.
  unfold parse_context_entries. split; [intros ->; reflexivity|].
  intros l ->. split; [apply parse_indexed_length|].
  intros i Hi. rewrite (parse_indexed_nth 0 l i Hi). simpl.
  repeat split; reflexivity.
Qed.

Lemma parse_success_entry (i : nat) (e : ContextEntry) :
  type e = "success" -> truthy (llm_response e) = true ->
  stored_fields (parse_entry i (entry_to_json e)) = stored_fields e.
Proof.
  intros Ht Hr. unfold entry_to_json. rewrite Ht. simpl.
  unfold parse_entry, parse_llm_response, stored_fields. simpl.
  unfold json_or. simpl. rewrite Hr. simpl. now rewrite <- Ht.
Qed.

Lemma parse_success_entries (s : nat) (es : list ContextEntry) :
  Forall (fun e => type e = "success" /\ truthy (llm_response e) = true) es ->
  map stored_fields
    (map (fun '(i, e) => parse_entry i e)
       (combine (seq s (length (map entry_to_json es))) (map entry_to_json es)))
  = map stored_fields es.
Proof.
  revert s; induction es as [|e es IH]; intros s Hf; [reflexivity|].
  inversion Hf as [|? ? [Ht Hr] Hf']; subst.
  simpl. rewrite (parse_success_entry s e Ht Hr), IH by exact Hf'. reflexivity.
Qed.

(** Saving [success] entries with non-empty responses and parsing the
    session back returns the same kind, prompt, response and timestamp for
    every entry. *)
Theorem save_parse_success_roundtrip (data : store) (k : string) (es : list ContextEntry) :
  Forall (fun e => type e = "success" /\ truthy (llm_response e) = true) es ->
  exists written, save_compacted_context (Some data) es k = Some written /\
    map stored_fields (parse_context_entries written k) = map stored_fields es.
Proof.
  intros Hf. eexists. split; [reflexivity|].
  unfold parse_context_entries. rewrite store_get_set. apply parse_success_entries, Hf.
Qed.

Lemma compact_context_segment_failure_keeps_text_witness :
  (forall p : string, (fun _ : string => PayloadFailed) p = PayloadFailed \/
     exists r, (fun _ : string => PayloadFailed) p = Sent r /\ response_ok r = None) /\
  compact_context_segment (fun _ => PayloadFailed) small_entries 1 = context_text_of small_entries /\
  forall e, In e small_entries ->
    contains (user_prompt e) (compact_context_segment (fun _ => PayloadFailed) small_entries 1)
      = true /\
    contains (llm_response e) (compact_context_segment (fun _ => PayloadFailed) small_entries 1)
      = true.
Proof.
  assert (H : forall p : string, (fun _ : string => PayloadFailed) p = PayloadFailed \/
     exists r, (fun _ : string => PayloadFailed) p = Sent r /\ response_ok r = None)
    by (intros p; left; reflexivity).
  split; [exact H|].
  exact (compact_context_segment_failure_keeps_text (fun _ => PayloadFailed) small_entries 1 H).
Defined.

Lemma compact_context_appends_new_prompt_witness :
  should_compact_context 2000 scenario_40 = true /\ 3 <= length scenario_40 /\
  truthy "zz" = true /\
  (forall e, In e scenario_40 -> contains "zz" (user_prompt e) = false) /\
  exists pre, compact_context 2000 (fun _ => PayloadFailed) scenario_40 (Some "zz") =
    pre ++ [ContextEntry_new "current_prompt" "zz" "[CURRENT TASK]" EmptyString].
Proof.
  assert (H1 : should_compact_context 2000 scenario_40 = true) by (vm_compute; reflexivity).
  assert (H2 : 3 <= length scenario_40) by (apply Nat.leb_le; vm_compute; reflexivity).
  assert (H3 : truthy "zz" = true) by reflexivity.
  assert (H4 : forall e, In e scenario_40 -> contains "zz" (user_prompt e) = false).
  { intros e He. unfold scenario_40 in He. apply in_map_iff in He.
    destruct He as [i [<- _]]. unfold scenario_entry. cbn [user_prompt].
    destruct (Nat.eqb i 35); reflexivity. }
  split; [exact H1|]. split; [exact H2|]. split; [exact H3|]. split; [exact H4|].
  exact (compact_context_appends_new_prompt 2000 (fun _ => PayloadFailed) scenario_40 "zz"
           H1 H2 H3 H4).
Defined.

Lemma save_parse_success_roundtrip_witness :
  Forall (fun e => type e = "success" /\ truthy (llm_response e) = true)
    [ContextEntry_new "success" "ls" "files" "t0"] /\
  exists written,
    save_compacted_context (Some []) [ContextEntry_new "success" "ls" "files" "t0"] "k"
      = Some written /\
    map stored_fields (parse_context_entries written "k")
      = map stored_fields [ContextEntry_new "success" "ls" "files" "t0"].
Proof.
  assert (H : Forall (fun e => type e = "success" /\ truthy (llm_response e) = true)
                [ContextEntry_new "success" "ls" "files" "t0"])
    by (constructor; [split; reflexivity | constructor]).
  split; [exact H|].
  exact (save_parse_success_roundtrip [] "k" [ContextEntry_new "success" "ls" "files" "t0"] H).
Defined.

End StoreExtras.
Module LoopExtras.
Import HandlerFacts.
Local Open Scope string_scope.
Local Open Scope list_scope.
Section Traces.
Variable opm : string.
Variable allow : bool.
Variable check : string -> string -> bool * string.
Variable ask : string -> nat * string.
Variable exec : string -> CommandResult.
Variable input : string.

Lemma action_loop_step (reply : llm_call) (rest : list llm_call) (ctx : string) (n : nat)
    (st : TaskState) :
  exists tr,
    snd (action_loop opm check ask exec input (reply :: rest) ctx n st) = (S n, ctx) :: tr /\
    (tr = [] \/ exists st1,
       tr = snd (action_loop opm check ask exec input rest (action_retry_context ctx) (S n) st1)).
Proof.
  cbn [action_loop].
  destruct reply as [|r]; [eexists; split; [reflexivity | left; reflexivity]|].
  destruct (response_ok r) as [resp|]; [|eexists; split; [reflexivity | left; reflexivity]].
  cbv zeta.
  set (st1 := set_actor_summary st (parse_llm_summary resp)).
  destruct (parse_suggested_command resp) as [c|].
  - destruct (truthy c).
    + destruct (handle_command_suggestion opm check ask exec input c st1) as [s st2].
      eexists; split; [reflexivity | left; reflexivity].
    + destruct (action_loop opm check ask exec input rest (action_retry_context ctx) (S n) st1)
        as [[res st'] tr] eqn:E.
      exists tr. split; [reflexivity|]. right. exists st1. rewrite E. reflexivity.
  - destruct (action_loop opm check ask exec input rest (action_retry_context ctx) (S n) st1)
      as [[res st'] tr] eqn:E.
    exists tr. split; [reflexivity|]. right. exists st1. rewrite E. reflexivity.
Qed.

Lemma action_loop_contexts (replies : list llm_call) :
  forall ctx n st i a c,
    nth_error (snd (action_loop opm check ask exec input replies ctx n st)) i = Some (a, c) ->
    a = S n + i /\ c = Nat.iter i action_retry_context ctx.
Proof.
  induction replies as [|reply rest IH]; intros ctx n st i a c H.
  - simpl in H. destruct i as [|[|i]]; simpl in H; try discriminate.
    injection H as <- <-. split; [lia | reflexivity].
  - destruct (action_loop_step reply rest ctx n st) as (tr & Htr & Hcase).
    rewrite Htr in H. destruct i as [|i]; simpl in H.
    + injection H as <- <-. split; [lia | reflexivity].
    + destruct Hcase as [-> | [st1 ->]].
      * destruct i; discriminate.
      * destruct (IH _ _ _ _ _ _ H) as [Ha Hc]. split; [lia|].
        rewrite Hc, <- Nat.iter_succ_r. reflexivity.
Qed.

(** [_execute_action_phase]: the [i]-th model call is attempt [i + 1], and its
    context is the original context with the correction appended [i] times
    (each retry extends the previous context). *)
Theorem action_retry_contexts_accumulate (replies : list llm_call) (ctx : string)
    (st : TaskState) (i a : nat) (c : string) :
  nth_error (snd (execute_action_phase opm check ask exec input replies ctx st)) i = Some (a, c) ->
  a = S i /\ c = Nat.iter i action_retry_context ctx.
Proof. intros H. exact (action_loop_contexts replies ctx 0 st i a c H). Qed.

Lemma evaluation_loop_step (reply : llm_call) (rest : list llm_call) (ctx cur op : string)
    (n : nat) (st : TaskState) :
  exists tr,
    snd (evaluation_loop allow input (reply :: rest) ctx cur n st op) = (S n, cur) :: tr /\
    (tr = [] \/ exists st1,
       tr = snd (evaluation_loop allow input rest ctx (evaluation_retry_context ctx) (S n) st1 op)).
Proof.
  cbn [evaluation_loop].
  destruct reply as [|r]; [eexists; split; [reflexivity | left; reflexivity]|].
  destruct (response_ok r) as [resp|]; [|eexists; split; [reflexivity | left; reflexivity]].
  cbv zeta.
  set (st1 := set_evaluator_summary st (parse_llm_summary resp)).
  destruct (truthy (parse_llm_decision resp)).
  - destruct (extract_decision_type_and_message (parse_llm_decision resp)) as [dt msg].
    destruct (process_evaluation_decision allow input dt msg (set_last_eval_decision st1 dt) op)
      as [[s nc] st2].
    eexists; split; [reflexivity | left; reflexivity].
  - destruct (evaluation_loop allow input rest ctx (evaluation_retry_context ctx) (S n) st1 op)
      as [[[res c'] st'] tr] eqn:E.
    exists tr. split; [reflexivity|]. right. exists st1. rewrite E. reflexivity.
Qed.

Lemma evaluation_loop_contexts (replies : list llm_call) :
  forall ctx cur n st op i a c,
    nth_error (snd (evaluation_loop allow input replies ctx cur n st op)) i = Some (a, c) ->
    a = S n + i /\ c = (if i =? 0 then cur else evaluation_retry_context ctx)%nat.
Proof.
  induction replies as [|reply rest IH]; intros ctx cur n st op i a c H.
  - simpl in H. destruct i as [|[|i]]; simpl in H; try discriminate.
    injection H as <- <-. split; [lia | reflexivity].
  - destruct (evaluation_loop_step reply rest ctx cur op n st) as (tr & Htr & Hcase).
    rewrite Htr in H. destruct i as [|i]; simpl in H.
    + injection H as <- <-. split; [lia | reflexivity].
    + destruct Hcase as [-> | [st1 ->]].
      * destruct i; discriminate.
      * destruct (IH _ _ _ _ _ _ _ _ H) as [Ha Hc]. split; [lia|].
        rewrite Hc. destruct i; reflexivity.
Qed.

(** [_execute_evaluation_phase]: the [i]-th model call is attempt [i + 1];
    the first is sent the phase's context, and every retry the same single
    correction of it (retries do not accumulate). *)
Theorem evaluation_retry_contexts_fixed (replies : list llm_call) (ctx op : string)
    (st : TaskState) (i a : nat) (c : string) :
  nth_error (snd (execute_evaluation_phase allow input replies ctx st op)) i = Some (a, c) ->
  a = S i /\ c = (if i =? 0 then ctx else evaluation_retry_context ctx)%nat.
Proof. intros H. exact (evaluation_loop_contexts replies ctx ctx 0 st op i a c H). Qed.

End Traces.

Lemma handle_command_suggestion_status opm check ask exec input command st :
  fst (handle_command_suggestion opm check ask exec input command st) <> COMPLETED /\
  (fst (handle_command_suggestion opm check ask exec input command st) = CANCELLED ->
   opm = "gremlin" /\ exists reason, ask command = (2, reason)).
Proof.
  unfold handle_command_suggestion.
  destruct (command =? "report_task_completion"); [split; [discriminate | discriminate]|].
  destruct (check command opm) as [allowed reason].
  destruct allowed.
  - destruct ((opm =? "normal") && negb (lower input =? "y")); split; discriminate.
  - destruct (opm =? "normal"); [split; discriminate|].
    destruct ((opm =? "gremlin") || (opm =? "goblin")) eqn:Eg; [|split; discriminate].
    destruct (String.eqb_spec opm "goblin").
    + destruct ((opm =? "normal") && negb (lower input =? "y")); split; discriminate.
    + destruct (ask command) as [d pr] eqn:Ea.
      destruct (d =? 0)%nat eqn:E0.
      * destruct ((opm =? "normal") && negb (lower input =? "y")); split; discriminate.
      * destruct (d =? 2)%nat eqn:E2.
        -- split; [discriminate|]. intros _. apply Nat.eqb_eq in E2. subst d.
           split; [|eexists; reflexivity].
           apply orb_true_iff in Eg. destruct Eg as [Eg|Eg]; [|discriminate].
           apply String.eqb_eq in Eg. exact Eg.
        -- split; discriminate.
Qed.

Lemma plan_loop_status allow input replies ctx n st :
  fst (fst (plan_loop allow input replies ctx n st)) <> Finished COMPLETED /\
  fst (fst (plan_loop allow input replies ctx n st)) <> Finished CANCELLED.
Proof.
  revert ctx n st. induction replies as [|reply rest IH]; intros ctx n st.
  - split; discriminate.
  - cbn [plan_loop]. destruct reply as [|r]; [split; discriminate|].
    destruct (response_ok r) as [resp|]; [|split; discriminate]. cbv zeta.
    destruct (prefix "CLARIFY_USER:" (parse_llm_decision resp)).
    + destruct allow; [split; discriminate|].
      match goal with
      | |- context [plan_loop ?a ?i rest ?c (S n) ?s] =>
          destruct (IH c (S n) s) as [H1 H2];
          destruct (plan_loop a i rest c (S n) s) as [[res st'] tr]
      end. exact (conj H1 H2).
    + match goal with
      | |- context [if ?b then _ else _] => destruct b
      end; [split; discriminate|].
      match goal with
      | |- context [plan_loop ?a ?i rest ?c (S n) ?s] =>
          destruct (IH c (S n) s) as [H1 H2];
          destruct (plan_loop a i rest c (S n) s) as [[res st'] tr]
      end. exact (conj H1 H2).
Qed.

Lemma response_ok_some (r : option string) (response : string) :
  response_ok r = Some response -> r = Some response.
Proof.
  destruct r as [s|]; simpl; [|discriminate].
  destruct (truthy s); [intros H; injection H as ->; reflexivity | discriminate].
Qed.

Lemma plan_loop_iteration allow input replies ctx n st :
  iteration (snd (fst (plan_loop allow input replies ctx n st))) = iteration st.
Proof.
  revert ctx n st. induction replies as [|reply rest IH]; intros ctx n st; [reflexivity|].
  cbn [plan_loop]. destruct reply as [|r]; [reflexivity|].
  destruct (response_ok r) as [resp|]; [|reflexivity]. cbv zeta.
  destruct (prefix "CLARIFY_USER:" (parse_llm_decision resp)).
  - destruct allow; [reflexivity|].
    match goal with
    | |- context [plan_loop ?a ?i rest ?c (S n) ?s] =>
        pose proof (IH c (S n) s) as H;
        destruct (plan_loop a i rest c (S n) s) as [[res st'] tr]
    end. exact H.
  - match goal with
    | |- context [if ?b then _ else _] => destruct b
    end; [reflexivity|].
    match goal with
    | |- context [plan_loop ?a ?i rest ?c (S n) ?s] =>
        pose proof (IH c (S n) s) as H;
        destruct (plan_loop a i rest c (S n) s) as [[res st'] tr]
    end. exact H.
Qed.

Lemma build_action_context_iteration up st :
  iteration (snd (build_action_context up st)) = iteration st.
Proof. unfold build_action_context. destruct (truthy (user_clarification st)); reflexivity. Qed.

Lemma action_loop_not_completed opm check ask exec input replies ctx n st :
  fst (fst (action_loop opm check ask exec input replies ctx n st)) <> Finished COMPLETED.
Proof.
  revert ctx n st. induction replies as [|reply rest IH]; intros ctx n st; [discriminate|].
  cbn [action_loop]. destruct reply as [|r]; [discriminate|].
  destruct (response_ok r) as [resp|]; [|discriminate].
  cbv zeta.
  set (st1 := set_actor_summary st (parse_llm_summary resp)).
  destruct (parse_suggested_command resp) as [c|].
  - destruct (truthy c).
    + destruct (handle_command_suggestion_status opm check ask exec input c st1) as [H1 _].
      destruct (handle_command_suggestion opm check ask exec input c st1) as [s st2].
      cbn [fst] in *. intro E. injection E. exact H1.
    + specialize (IH (action_retry_context ctx) (S n) st1).
      destruct (action_loop opm check ask exec input rest _ (S n) st1) as [[res st'] tr].
      exact IH.
  - specialize (IH (action_retry_context ctx) (S n) st1).
    destruct (action_loop opm check ask exec input rest _ (S n) st1) as [[res st'] tr].
    exact IH.
Qed.

(** The action phase ends [CANCELLED] only in gremlin mode, on a reply (the
    last one it consumes) suggesting a command that the permission manager
    blocks and for which the user chooses "cancel"; the iteration counter
    is unchanged. *)
Lemma action_loop_cancel opm check ask exec input replies ctx n st :
  fst (fst (action_loop opm check ask exec input replies ctx n st)) = Finished CANCELLED ->
  iteration (snd (fst (action_loop opm check ask exec input replies ctx n st))) = iteration st /\
  opm = "gremlin" /\
  exists pre response command reason,
    replies = pre ++ Sent (Some response)
                :: skipn (length (snd (action_loop opm check ask exec input replies ctx n st)))
                     replies /\
    parse_suggested_command response = Some command /\
    command <> "report_task_completion" /\
    fst (check command opm) = false /\ ask command = (2, reason).
Proof.
  revert ctx n st. induction replies as [|reply rest IH]; intros ctx n st; [discriminate|].
  cbn [action_loop]. destruct reply as [|r]; [discriminate|].
  destruct (response_ok r) as [resp|] eqn:Er; [|discriminate].
  apply response_ok_some in Er. subst r.
  cbv zeta.
  set (st1 := set_actor_summary st (parse_llm_summary resp)).
  destruct (parse_suggested_command resp) as [c|] eqn:Ec.
  - destruct (truthy c).
    + destruct (handle_command_suggestion_cancelled opm check ask exec input c st1)
        as [[Hiff _] Hst].
      destruct (handle_command_suggestion opm check ask exec input c st1) as [s st2].
      cbn [fst snd] in *. intros E. injection E as E.
      destruct (Hiff E) as (Hr & Ho & Hchk & Ha). rewrite (Hst E).
      split; [reflexivity|]. split; [exact Ho|].
      destruct (ask c) as [d reason] eqn:Eask. cbn [fst] in Ha. subst d.
      exists [], resp, c, reason. repeat split; assumption.
    + specialize (IH (action_retry_context ctx) (S n) st1).
      destruct (action_loop opm check ask exec input rest _ (S n) st1) as [[res st'] tr].
      cbn [fst snd length skipn] in *. intros E.
      destruct (IH E) as (Hit & Ho & pre & response & command & reason & Hrs & Hrest).
      split; [exact Hit|]. split; [exact Ho|].
      exists (Sent (Some resp) :: pre), response, command, reason.
      split; [rewrite Hrs at 1; reflexivity | exact Hrest].
  - specialize (IH (action_retry_context ctx) (S n) st1).
    destruct (action_loop opm check ask exec input rest _ (S n) st1) as [[res st'] tr].
    cbn [fst snd length skipn] in *. intros E.
    destruct (IH E) as (Hit & Ho & pre & response & command & reason & Hrs & Hrest).
    split; [exact Hit|]. split; [exact Ho|].
    exists (Sent (Some resp) :: pre), response, command, reason.
    split; [rewrite Hrs at 1; reflexivity | exact Hrest].
Qed.

Section Loops.
Variable opm : string.
Variable allow : bool.
Variable check : nat -> string -> string -> bool * string.
Variable ask : nat -> string -> nat * string.
Variable exec : nat -> string -> CommandResult.
Variable input : nat -> phase -> string.

Lemma process_evaluation_decision_status allow' input' dt msg st op :
  let '(s, _, st') := process_evaluation_decision allow' input' dt msg st op in
  s <> CANCELLED /\ (s = COMPLETED -> dt = "TASK_COMPLETE" /\ st' = st).
Proof.
  unfold process_evaluation_decision.
  destruct (String.eqb_spec dt "TASK_COMPLETE"); [split; [discriminate | auto]|].
  destruct (dt =? "TASK_FAILED"); [split; discriminate|].
  destruct (dt =? "CONTINUE_PLAN"); [split; discriminate|].
  destruct (dt =? "REVISE_PLAN"); [split; discriminate|].
  destruct (dt =? "CLARIFY_USER"); [destruct allow'; split; discriminate|].
  destruct (dt =? "VERIFY_ACTION"); split; discriminate.
Qed.

Lemma evaluation_loop_status allow' input' replies ctx cur n st op :
  let '(r, _, st', _) := evaluation_loop allow' input' replies ctx cur n st op in
  r <> Finished CANCELLED /\
  (r = Finished COMPLETED -> last_eval_decision st' = "TASK_COMPLETE").
Proof.
  revert cur n st. induction replies as [|reply rest IH]; intros cur n st.
  - split; discriminate.
  - cbn [evaluation_loop]. destruct reply as [|r]; [split; discriminate|].
    destruct (response_ok r) as [resp|]; [|split; discriminate].
    cbv zeta.
    set (st1 := set_evaluator_summary st (parse_llm_summary resp)).
    destruct (truthy (parse_llm_decision resp)).
    + destruct (extract_decision_type_and_message (parse_llm_decision resp)) as [dt msg].
      pose proof (process_evaluation_decision_status allow' input' dt msg
                    (set_last_eval_decision st1 dt) op) as H.
      destruct (process_evaluation_decision allow' input' dt msg (set_last_eval_decision st1 dt) op)
        as [[s nc] st2].
      destruct H as [H1 H2]. split.
      * intro E. injection E. exact H1.
      * intro E. injection E as E. destruct (H2 E) as [-> ->]. reflexivity.
    + specialize (IH (evaluation_retry_context ctx) (S n) st1).
      destruct (evaluation_loop allow' input' rest ctx _ (S n) st1 op) as [[[res c'] st'] tr].
      exact IH.
Qed.

Lemma outcome_ok_skipn m l o :
  outcome_ok opm check ask (skipn m l) o -> outcome_ok opm check ask l o.
Proof.
  destruct o as [[[r c] st'] rs]. unfold outcome_ok, cancel_evidence.
  intros [H1 H2]. split; [exact H1|]. intros E.
  destruct (H2 E) as (Ho & pre & response & command & reason & Hl & Hrest).
  split; [exact Ho|]. exists (firstn m l ++ pre), response, command, reason.
  split; [|exact Hrest]. rewrite <- app_assoc, <- Hl. symmetry. apply firstn_skipn.
Qed.

Lemma after_plan_outcome k n up ctx1 st1 rs1 :
  iteration st1 = n ->
  (forall rs c s, outcome_ok opm check ask rs (k rs c s)) ->
  outcome_ok opm check ask rs1 (act_and_evaluate opm allow check ask exec input k n up ctx1 st1 rs1).
Proof.
  intros Hn Hk. unfold act_and_evaluate.
  destruct (negb (truthy (current_instruction st1))); [unfold outcome_ok; split; intro E; discriminate|].
  unfold execute_action_phase.
  pose proof (action_loop_not_completed opm (check n) (ask n) (exec n) (input n ActionPhase)
                rs1 ctx1 0 st1) as Ha1.
  pose proof (action_loop_cancel opm (check n) (ask n) (exec n) (input n ActionPhase)
                rs1 ctx1 0 st1) as Ha2.
  destruct (action_loop opm (check n) (ask n) (exec n) (input n ActionPhase) rs1 ctx1 0 st1)
    as [[ra st2] tra].
  cbn [fst snd] in Ha1, Ha2.
  destruct ra as [[| | |]|];
  [ |
    unfold outcome_ok; split; intro E; [contradiction | discriminate]
  | unfold outcome_ok; split; intro E; discriminate
  | 
  | unfold outcome_ok; split; intro E; discriminate ].
  - destruct (build_evaluation_context up st2) as [ec st3].
    unfold execute_evaluation_phase.
    pose proof (evaluation_loop_status allow (input n EvaluationPhase) (skipn (length tra) rs1)
                  ec ec 0 st3 up) as He.
    destruct (evaluation_loop allow (input n EvaluationPhase) (skipn (length tra) rs1) ec ec 0 st3 up)
      as [[[re ctx4] st4] tre].
    destruct He as [He1 He2].
    destruct re as [[| | |]|];
    [ apply outcome_ok_skipn with (m := length tra), outcome_ok_skipn with (m := length tre), Hk
    | unfold outcome_ok; split; intro E; [exact (He2 eq_refl) | discriminate]
    | unfold outcome_ok; split; intro E; discriminate
    | contradiction
    | unfold outcome_ok; split; intro E; discriminate ].
  - unfold outcome_ok. split; [discriminate|]. intros _.
    destruct (Ha2 eq_refl) as (Hit & Ho & pre & response & command & reason & Hl & Hrest).
    unfold cancel_evidence. rewrite Hit, Hn.
    split; [exact Ho|]. exists pre, response, command, reason. split; [exact Hl | exact Hrest].
Qed.

Lemma task_iteration_outcome k replies up ctx st :
  (forall rs c s, outcome_ok opm check ask rs (k rs c s)) ->
  outcome_ok opm check ask replies (task_iteration opm allow check ask exec input k replies up ctx st).
Proof.
  intros Hk. unfold task_iteration. cbv zeta.
  destruct (needs_new_plan (set_iteration st (S (iteration st)))).
  - unfold execute_plan_phase.
    lazymatch goal with
    | |- context [plan_loop ?a ?i replies ctx 0 ?st0] =>
        destruct (plan_loop_status a i replies ctx 0 st0) as [H1 H2];
        pose proof (plan_loop_iteration a i replies ctx 0 st0) as Hit;
        destruct (plan_loop a i replies ctx 0 st0) as [[r st1] tr]
    end.
    cbn [fst snd] in H1, H2, Hit.
    destruct r as [[| | |]|];
      [ | contradiction | unfold outcome_ok; split; intro E; discriminate
        | contradiction | unfold outcome_ok; split; intro E; discriminate ].
    pose proof (build_action_context_iteration up st1) as Hb.
    destruct (build_action_context up st1) as [ctx1 st1'].
    apply outcome_ok_skipn with (m := length tr).
    apply after_plan_outcome; [cbn [snd] in Hb; rewrite Hb, Hit; reflexivity | exact Hk].
  - apply after_plan_outcome; [reflexivity | exact Hk].
Qed.

Lemma trace_nonempty_skip {A B : Type} (tr : list A) (rs : list B) :
  tr <> [] -> rs <> [] -> length (skipn (length tr) rs) < length rs.
Proof.
  intros Ht Hr. rewrite length_skipn.
  destruct tr; [contradiction|]. destruct rs; [contradiction|]. simpl. lia.
Qed.

Lemma action_loop_trace_nonempty opm' check' ask' exec' input' replies ctx n st :
  snd (action_loop opm' check' ask' exec' input' replies ctx n st) <> [].
Proof.
  destruct replies as [|reply rest]; [discriminate|].
  destruct (action_loop_step opm' check' ask' exec' input' reply rest ctx n st) as (tr & -> & _).
  discriminate.
Qed.

Lemma act_and_evaluate_ext k1 k2 n up ctx st rs :
  (forall rs' c s, length rs' < length rs -> k1 rs' c s = k2 rs' c s) ->
  act_and_evaluate opm allow check ask exec input k1 n up ctx st rs =
  act_and_evaluate opm allow check ask exec input k2 n up ctx st rs.
Proof.
  intros Hk. unfold act_and_evaluate.
  destruct (negb (truthy (current_instruction st))); [reflexivity|].
  unfold execute_action_phase.
  pose proof (action_loop_trace_nonempty opm (check n) (ask n) (exec n) (input n ActionPhase)
                rs ctx 0 st) as Hne.
  destruct rs as [|r0 rs0] eqn:Ers; [reflexivity|].
  rewrite <- Ers in *.
  destruct (action_loop opm (check n) (ask n) (exec n) (input n ActionPhase) rs ctx 0 st)
    as [[ra st2] tra].
  cbn [snd] in Hne.
  destruct ra as [[| | |]|]; try reflexivity.
  destruct (build_evaluation_context up st2) as [ec st3].
  unfold execute_evaluation_phase.
  destruct (evaluation_loop allow (input n EvaluationPhase) (skipn (length tra) rs) ec ec 0 st3 up)
    as [[[re ctx4] st4] tre].
  destruct re as [[| | |]|]; try reflexivity.
  apply Hk.
  eapply Nat.le_lt_trans; [rewrite length_skipn; apply Nat.le_sub_l|].
  apply trace_nonempty_skip; [exact Hne | rewrite Ers; discriminate].
Qed.

Lemma task_iteration_ext k1 k2 replies up ctx st :
  (forall rs c s, length rs < length replies -> k1 rs c s = k2 rs c s) ->
  task_iteration opm allow check ask exec input k1 replies up ctx st =
  task_iteration opm allow check ask exec input k2 replies up ctx st.
Proof.
  intros Hk. unfold task_iteration. cbv zeta.
  destruct (needs_new_plan (set_iteration st (S (iteration st)))).
  - unfold execute_plan_phase.
    lazymatch goal with
    | |- context [plan_loop ?a ?i replies ctx 0 ?st0] =>
        destruct (plan_loop a i replies ctx 0 st0) as [[r st1] tr]
    end.
    destruct r as [[| | |]|]; try reflexivity.
    destruct (build_action_context up st1) as [ctx1 st1'].
    apply act_and_evaluate_ext. intros rs' c s Hl. apply Hk.
    eapply Nat.lt_le_trans; [exact Hl|]. rewrite length_skipn. apply Nat.le_sub_l.
  - apply act_and_evaluate_ext. exact Hk.
Qed.

(** Fuel beyond the number of replies does not change [task_loop]. *)
Lemma task_loop_fuel n replies up ctx st :
  length replies < n ->
  task_loop opm allow check ask exec input n replies up ctx st =
  task_loop opm allow check ask exec input (S n) replies up ctx st.
Proof.
  revert replies ctx st. induction n as [|n IH]; intros replies ctx st Hn; [lia|].
  cbn [task_loop]. apply task_iteration_ext. intros rs c s Hl. apply IH. lia.
Qed.

Lemma task_loop_fuel_le n m replies up ctx st :
  length replies < n -> n <= m ->
  task_loop opm allow check ask exec input n replies up ctx st =
  task_loop opm allow check ask exec input m replies up ctx st.
Proof.
  intros Hn Hm. induction Hm as [|m Hm IH]; [reflexivity|].
  rewrite IH. apply task_loop_fuel. lia.
Qed.

Lemma task_loop_outcome fuel replies up ctx st :
  outcome_ok opm check ask replies (task_loop opm allow check ask exec input fuel replies up ctx st).
Proof.
  revert replies ctx st. induction fuel as [|fuel IH]; intros replies ctx st.
  - unfold outcome_ok. split; intro E; discriminate.
  - cbn [task_loop]. apply task_iteration_outcome. intros. apply IH.
Qed.

(** [handle_task] reports success only when its loop ended [COMPLETED] in a
    state whose last evaluator decision is [TASK_COMPLETE]; the returned
    context is the evaluation context of that final state. *)
Theorem task_completed_after_task_complete replies up c :
  handle_task opm allow check ask exec input replies up = Some (true, c) ->
  let '(r, _, st', _) :=
    task_loop opm allow check ask exec input (S (length replies)) replies up up TaskState_new in
  r = Finished COMPLETED /\ last_eval_decision st' = "TASK_COMPLETE" /\
  c = fst (build_evaluation_context up st').
Proof.
  unfold handle_task.
  pose proof (task_loop_outcome (S (length replies)) replies up up TaskState_new) as H.
  destruct (task_loop opm allow check ask exec input (S (length replies)) replies up up
              TaskState_new) as [[[r ctx] st'] rs].
  destruct H as [Hc _].
  destruct r as [s|]; [|discriminate].
  destruct (build_evaluation_context up st') as [fc st''] eqn:Eb.
  destruct s; try discriminate.
  intros E. injection E as <-. split; [reflexivity|]. split; [exact (Hc eq_refl)|].
  reflexivity.
Qed.

(** Neither the plan phase nor the evaluation phase ever returns
    [CANCELLED].  The task loop ends [CANCELLED] only in gremlin mode, right
    after the action phase consumed a reply (the last one used) suggesting a
    command that the permission manager blocked and for which the user
    chose "cancel" (2) at the permission prompt, both in the final
    iteration. *)
Theorem task_cancelled_only_gremlin :
  (forall allow' input' replies ctx st,
     fst (fst (execute_plan_phase allow' input' replies ctx st)) <> Finished CANCELLED) /\
  (forall allow' input' replies ctx st op,
     fst (fst (fst (execute_evaluation_phase allow' input' replies ctx st op)))
       <> Finished CANCELLED) /\
  (forall fuel replies up ctx st,
     let '(r, _, st', rs) := task_loop opm allow check ask exec input fuel replies up ctx st in
     r = Finished CANCELLED ->
     opm = "gremlin" /\
     exists pre response command reason,
       replies = pre ++ Sent (Some response) :: rs /\
       parse_suggested_command response = Some command /\
       command <> "report_task_completion" /\
       fst (check (iteration st') command opm) = false /\
       ask (iteration st') command = (2, reason)).
Proof.
  split; [intros; apply plan_loop_status|].
  split.
  - intros allow' input' replies ctx st op. unfold execute_evaluation_phase.
    pose proof (evaluation_loop_status allow' input' replies ctx ctx 0 st op) as H.
    destruct (evaluation_loop allow' input' replies ctx ctx 0 st op) as [[[r c] st'] tr].
    exact (proj1 H).
  - intros fuel replies up ctx st.
    pose proof (task_loop_outcome fuel replies up ctx st) as H.
    destruct (task_loop opm allow check ask exec input fuel replies up ctx st)
      as [[[r c] st'] rs].
    destruct H as [_ H]. exact H.
Qed.
End Loops.

Lemma build_action_context_instruction up st :
  current_instruction (snd (build_action_context up st)) = current_instruction st.
Proof. unfold build_action_context. destruct (truthy (user_clarification st)); reflexivity. Qed.

(** With clarifying questions allowed, when the planner's first reply asks
    a clarification question the task fails: the answer is read, but no
    instruction exists yet, so the action phase never runs. *)
Theorem planner_clarification_first_fails opm check ask exec input r rest up :
  prefix "CLARIFY_USER:" (parse_llm_decision r) = true ->
  exists c, handle_task opm true check ask exec input (Sent (Some r) :: rest) up = Some (false, c).
Proof.
  intros Hd.
  assert (Ht : truthy r = true) by (destruct r; [vm_compute in Hd; discriminate | reflexivity]).
  unfold handle_task. cbn [length task_loop]. unfold task_iteration. cbv zeta.
  replace (needs_new_plan (set_iteration TaskState_new (S (iteration TaskState_new)))) with true
    by reflexivity.
  unfold execute_plan_phase. cbn [plan_loop]. unfold response_ok. rewrite Ht.
  cbv zeta iota. rewrite Hd.
  lazymatch goal with
  | |- context [build_action_context up ?s] =>
      pose proof (build_action_context_instruction up s) as Hi;
      destruct (build_action_context up s) as [ctx1 st2]
  end.
  cbn [snd current_instruction set_current_plan set_last_eval_decision set_user_clarification
       set_iteration TaskState_new] in Hi.
  unfold act_and_evaluate. rewrite Hi.
  cbn. destruct (build_evaluation_context up st2) as [fc st3]. eexists. reflexivity.
Qed.

(** After an evaluator decision that keeps the task running, the next
    iteration of [handle_task] re-plans unless the decision was
    [VERIFY_ACTION] with a plan in place; [VERIFY_ACTION] sets the next
    instruction to run the verification command. *)
Theorem continue_decision_replans allow input dt msg st op :
  fst (fst (process_evaluation_decision allow input dt msg (set_last_eval_decision st dt) op))
    = IN_PROGRESS ->
  needs_new_plan (snd (process_evaluation_decision allow input dt msg
                         (set_last_eval_decision st dt) op))
    = negb ((dt =? "VERIFY_ACTION") && truthy (current_plan st)) /\
  (dt = "VERIFY_ACTION" ->
   current_instruction (snd (process_evaluation_decision allow input dt msg
                               (set_last_eval_decision st dt) op))
     = ("Execute verification command: " ++ msg)%string).
Proof.
  unfold process_evaluation_decision.
  destruct (String.eqb_spec dt "TASK_COMPLETE"); [discriminate|].
  destruct (String.eqb_spec dt "TASK_FAILED"); [discriminate|].
  destruct (String.eqb_spec dt "CONTINUE_PLAN") as [->|].
  { intros _. split; [|discriminate].
    unfold needs_new_plan. cbn [fst snd current_plan last_eval_decision set_user_clarification
      set_step_index set_last_eval_decision].
    destruct (truthy (current_plan st)); reflexivity. }
  destruct (String.eqb_spec dt "REVISE_PLAN") as [->|].
  { intros _. split; [|discriminate]. reflexivity. }
  destruct (String.eqb_spec dt "CLARIFY_USER") as [->|].
  { destruct allow; [|discriminate]. intros _. split; [|discriminate]. reflexivity. }
  destruct (String.eqb_spec dt "VERIFY_ACTION") as [->|]; [|discriminate].
  intros _. split; [|reflexivity].
  unfold needs_new_plan. cbn [fst snd current_plan last_eval_decision user_clarification
    set_user_clarification set_current_instruction set_last_eval_decision].
  destruct (truthy (current_plan st)); reflexivity.
Qed.

Lemma action_retry_contexts_accumulate_witness :
  nth_error (snd (execute_action_phase "normal" allow_all answer_once run_ok "y"
                    [Sent (Some "no command here")] "ctx" TaskState_new)) 1
    = Some (2, action_retry_context "ctx") /\
  2 = S 1 /\ action_retry_context "ctx" = Nat.iter 1 action_retry_context "ctx".
Proof.
  assert (H : nth_error (snd (execute_action_phase "normal" allow_all answer_once run_ok "y"
                    [Sent (Some "no command here")] "ctx" TaskState_new)) 1
    = Some (2, action_retry_context "ctx")) by (vm_compute; reflexivity).
  split; [exact H|].
  exact (action_retry_contexts_accumulate "normal" allow_all answer_once run_ok "y" _ "ctx"
           TaskState_new 1 2 _ H).
Defined.

Lemma evaluation_retry_contexts_fixed_witness :
  nth_error (snd (execute_evaluation_phase true "y" [Sent (Some "no decision here")] "ctx"
                    TaskState_new "list files")) 1
    = Some (2, evaluation_retry_context "ctx") /\
  2 = S 1 /\
  evaluation_retry_context "ctx"
    = (if Nat.eqb 1 0 then "ctx" else evaluation_retry_context "ctx").
Proof.
  assert (H : nth_error (snd (execute_evaluation_phase true "y" [Sent (Some "no decision here")]
                    "ctx" TaskState_new "list files")) 1
    = Some (2, evaluation_retry_context "ctx")) by (vm_compute; reflexivity).
  split; [exact H|].
  exact (evaluation_retry_contexts_fixed true "y" _ "ctx" "list files" TaskState_new 1 2 _ H).
Defined.

Lemma task_completed_after_task_complete_witness :
  handle_task "normal" true (fun _ => allow_all) (fun _ => answer_once) (fun _ => run_ok)
    (fun _ _ => "y") [plan_reply; command_reply; complete_reply] "list files"
    = Some (true, completed_run_context) /\
  let '(r, _, st', _) :=
    task_loop "normal" true (fun _ => allow_all) (fun _ => answer_once) (fun _ => run_ok)
      (fun _ _ => "y") 4 [plan_reply; command_reply; complete_reply] "list files" "list files"
      TaskState_new in
  r = Finished COMPLETED /\ last_eval_decision st' = "TASK_COMPLETE" /\
  completed_run_context = fst (build_evaluation_context "list files" st').
Proof.
  assert (H : handle_task "normal" true (fun _ => allow_all) (fun _ => answer_once)
                (fun _ => run_ok) (fun _ _ => "y") [plan_reply; command_reply; complete_reply]
                "list files"
              = Some (true, completed_run_context)) by (vm_compute; reflexivity).
  split; [exact H|].
  exact (task_completed_after_task_complete "normal" true (fun _ => allow_all)
           (fun _ => answer_once) (fun _ => run_ok) (fun _ _ => "y") _ "list files"
           completed_run_context H).
Defined.

Lemma task_cancelled_only_gremlin_witness :
  fst (fst (fst (task_loop "gremlin" true (fun _ => block_all) (fun _ => answer_cancel)
                   (fun _ => run_ok) (fun _ _ => "y") 3
                   [plan_reply; command_reply] "list files" "list files" TaskState_new)))
    = Finished CANCELLED /\
  let '(r, _, st', rs) :=
    task_loop "gremlin" true (fun _ => block_all) (fun _ => answer_cancel) (fun _ => run_ok)
      (fun _ _ => "y") 3 [plan_reply; command_reply] "list files" "list files" TaskState_new in
  r = Finished CANCELLED ->
  "gremlin" = "gremlin" /\
  exists pre response command reason,
    [plan_reply; command_reply] = pre ++ Sent (Some response) :: rs /\
    parse_suggested_command response = Some command /\
    command <> "report_task_completion" /\
    fst (block_all command "gremlin") = false /\
    answer_cancel command = (2, reason).
Proof.
  assert (H : fst (fst (fst (task_loop "gremlin" true (fun _ => block_all)
                   (fun _ => answer_cancel) (fun _ => run_ok) (fun _ _ => "y") 3
                   [plan_reply; command_reply] "list files" "list files" TaskState_new)))
    = Finished CANCELLED) by (vm_compute; reflexivity).
  split; [exact H|].
  exact (proj2 (proj2 (task_cancelled_only_gremlin "gremlin" true (fun _ => block_all)
           (fun _ => answer_cancel) (fun _ => run_ok) (fun _ _ => "y")))
           3 [plan_reply; command_reply] "list files" "list files" TaskState_new).
Defined.

Lemma continue_decision_replans_witness :
  let st := set_current_plan TaskState_new "1. ls" in
  fst (fst (process_evaluation_decision true "y" "VERIFY_ACTION" "ls -a"
              (set_last_eval_decision st "VERIFY_ACTION") "list files")) = IN_PROGRESS /\
  needs_new_plan (snd (process_evaluation_decision true "y" "VERIFY_ACTION" "ls -a"
                         (set_last_eval_decision st "VERIFY_ACTION") "list files"))
    = negb (("VERIFY_ACTION" =? "VERIFY_ACTION") && truthy (current_plan st)) /\
  ("VERIFY_ACTION" = "VERIFY_ACTION" ->
   current_instruction (snd (process_evaluation_decision true "y" "VERIFY_ACTION" "ls -a"
                               (set_last_eval_decision st "VERIFY_ACTION") "list files"))
     = ("Execute verification command: " ++ "ls -a")%string).
Proof.
  intros st.
  assert (H : fst (fst (process_evaluation_decision true "y" "VERIFY_ACTION" "ls -a"
              (set_last_eval_decision st "VERIFY_ACTION") "list files")) = IN_PROGRESS)
    by (vm_compute; reflexivity).
  split; [exact H|].
  exact (continue_decision_replans true "y" "VERIFY_ACTION" "ls -a" st "list files" H).
Defined.

Lemma planner_clarification_first_fails_witness :
  prefix "CLARIFY_USER:" (parse_llm_decision "<decision>CLARIFY_USER: which directory?</decision>")
    = true /\
  exists c, handle_task "normal" true (fun _ => allow_all) (fun _ => answer_once)
    (fun _ => run_ok) (fun _ _ => "docs") [Sent (Some "<decision>CLARIFY_USER: which directory?</decision>"); plan_reply] "list files"
    = Some (false, c).
Proof.
  assert (H : prefix "CLARIFY_USER:"
                (parse_llm_decision "<decision>CLARIFY_USER: which directory?</decision>") = true)
    by (vm_compute; reflexivity).
  split; [exact H|].
  exact (planner_clarification_first_fails "normal" (fun _ => allow_all) (fun _ => answer_once)
           (fun _ => run_ok) (fun _ _ => "docs") _
           [plan_reply] "list files" H).
Defined.

End LoopExtras.
Module CommandExtras.
Import HandlerFacts.
Local Open Scope string_scope.
Lemma command_suggestion_frame_eq opm check ask exec input command st s st' :
  handle_command_suggestion opm check ask exec input command st = (s, st') ->
  st' = st \/ exists taken result, st' = set_action st taken result.
Proof.
  unfold handle_command_suggestion.
  destruct (command =? "report_task_completion").
  { intros E. injection E as _ <-. right. do 2 eexists. reflexivity. }
  destruct (check command opm) as [allowed reason].
  assert (Hexec : forall s' st'',
    (if (opm =? "normal") && negb (lower input =? "y") then
      (IN_PROGRESS, set_action st ("Command '" ++ command ++ "' cancelled by user")
        "User cancelled at confirmation")
     else
      (IN_PROGRESS, set_action st ("Executed command: " ++ command)
        ("Exit Code: " ++ str_int (exit_code (exec command)) ++ ". Output:" ++ nl
          ++ (if truthy (output (exec command)) then output (exec command) else "(no output)"))))
    = (s', st'') -> st'' = st \/ exists taken result, st'' = set_action st taken result).
  { intros s' st''. destruct ((opm =? "normal") && negb (lower input =? "y"));
      intros E; injection E as _ <-; right; do 2 eexists; reflexivity. }
  destruct allowed; [exact (Hexec s st')|].
  destruct (opm =? "normal").
  { intros E. injection E as _ <-. right. do 2 eexists. reflexivity. }
  destruct ((opm =? "gremlin") || (opm =? "goblin")); [|intros E; injection E as _ <-; left; reflexivity].
  destruct (opm =? "goblin"); [exact (Hexec s st')|].
  destruct (ask command) as [d pr].
  destruct (d =? 0)%nat; [exact (Hexec s st')|].
  destruct (d =? 2)%nat; intros E; injection E as _ <-; [left; reflexivity|].
  right. do 2 eexists. reflexivity.
Qed.

(** [_handle_command_suggestion] changes at most [last_action_taken] and
    [last_action_result] of the state. *)
Theorem command_suggestion_frame opm check ask exec input command st :
  snd (handle_command_suggestion opm check ask exec input command st) = st \/
  exists taken result,
    snd (handle_command_suggestion opm check ask exec input command st) = set_action st taken result.
Proof.
  destruct (handle_command_suggestion opm check ask exec input command st) as [s st'] eqn:E.
  exact (command_suggestion_frame_eq opm check ask exec input command st s st' E).
Qed.

(** [_handle_command_suggestion] reads the confirmation line only in normal
    mode: in any other mode its outcome does not depend on what the user
    types. *)
Theorem command_suggestion_input_only_normal opm check ask exec i1 i2 command st :
  opm <> "normal" ->
  handle_command_suggestion opm check ask exec i1 command st =
  handle_command_suggestion opm check ask exec i2 command st.
Proof.
  intros Hn. apply String.eqb_neq in Hn. unfold handle_command_suggestion.
  rewrite Hn. cbn [andb]. reflexivity.
Qed.

(** In goblin mode every suggested command (other than the completion
    signal) is executed, whatever the permission manager says, and its
    exit code and output are recorded. *)
Theorem goblin_executes_every_command check ask exec input command st :
  command <> "report_task_completion" ->
  handle_command_suggestion "goblin" check ask exec input command st =
    (IN_PROGRESS,
     set_action st ("Executed command: " ++ command)
       ("Exit Code: " ++ str_int (exit_code (exec command)) ++ ". Output:" ++ nl
          ++ (if truthy (output (exec command)) then output (exec command) else "(no output)"))).
Proof.
  intros Hc. apply String.eqb_neq in Hc. unfold handle_command_suggestion.
  rewrite Hc. destruct (check command "goblin") as [[|] reason]; reflexivity.
Qed.

Lemma normal_mode_executes_only_confirmed_eq check ask exec input command st s st' :
  handle_command_suggestion "normal" check ask exec input command st = (s, st') ->
  s = IN_PROGRESS /\
  (last_action_taken st' = "Executed command: " ++ command <->
   command <> "report_task_completion" /\ fst (check command "normal") = true /\
   lower input = "y").
Proof.
  unfold handle_command_suggestion.
  destruct (String.eqb_spec command "report_task_completion") as [Hr|Hr].
  { intros E. injection E as <- <-. split; [reflexivity|].
    split; [subst command; cbn; discriminate | intros [H _]; contradiction]. }
  destruct (check command "normal") as [allowed reason]. cbn [fst].
  destruct allowed.
  - cbn [String.eqb andb negb].
    destruct (String.eqb_spec (lower input) "y") as [Hy|Hy]; cbn [negb].
    + intros E. injection E as <- <-. split; [reflexivity|]. cbn.
      split; [intros _; auto | reflexivity].
    + intros E. injection E as <- <-. split; [reflexivity|]. cbn.
      split; [discriminate | intros (_ & _ & H); contradiction].
  - cbn [String.eqb]. intros E. injection E as <- <-. split; [reflexivity|]. cbn.
    split; [discriminate | intros (_ & H & _); discriminate].
Qed.

(** In normal mode [_handle_command_suggestion] always continues the task,
    and it executes the command exactly when the command is not the
    completion signal, the permission manager allows it and the user
    confirms with [y] (case-insensitively). *)
Theorem normal_mode_executes_only_confirmed check ask exec input command st :
  fst (handle_command_suggestion "normal" check ask exec input command st) = IN_PROGRESS /\
  (last_action_taken (snd (handle_command_suggestion "normal" check ask exec input command st))
     = "Executed command: " ++ command <->
   command <> "report_task_completion" /\ fst (check command "normal") = true /\
   lower input = "y").
Proof.
  destruct (handle_command_suggestion "normal" check ask exec input command st) as [s st'] eqn:E.
  exact (normal_mode_executes_only_confirmed_eq check ask exec input command st s st' E).
Qed.

(** In gremlin mode a blocked command the user neither allows once nor
    cancels is not executed; the denial and its reason are recorded and the
    task continues. *)
Theorem gremlin_denial_recorded check ask exec input command st d reason perm_reason :
  command <> "report_task_completion" ->
  check command "gremlin" = (false, reason) ->
  ask command = (d, perm_reason) -> d <> 0 -> d <> 2 ->
  handle_command_suggestion "gremlin" check ask exec input command st =
    (IN_PROGRESS,
     set_action st ("Command '" ++ command ++ "' denied by user")
       ("User denied permission: " ++ perm_reason)).
Proof.
  intros Hc Hk Ha H0 H2. apply String.eqb_neq in Hc. apply Nat.eqb_neq in H0, H2.
  unfold handle_command_suggestion. rewrite Hc, Hk. cbn [String.eqb orb].
  rewrite Ha, H0, H2. reflexivity.
Qed.

Lemma command_suggestion_input_only_normal_witness :
  "goblin" <> "normal" /\
  handle_command_suggestion "goblin" allow_all answer_once run_ok "y" "ls" TaskState_new =
  handle_command_suggestion "goblin" allow_all answer_once run_ok "n" "ls" TaskState_new.
Proof.
  assert (H : "goblin" <> "normal") by discriminate.
  split; [exact H|].
  exact (command_suggestion_input_only_normal "goblin" allow_all answer_once run_ok "y" "n" "ls"
           TaskState_new H).
Defined.

Lemma goblin_executes_every_command_witness :
  "ls" <> "report_task_completion" /\
  handle_command_suggestion "goblin" block_all answer_once run_ok "n" "ls" TaskState_new =
    (IN_PROGRESS,
     set_action TaskState_new ("Executed command: " ++ "ls")
       ("Exit Code: " ++ str_int (exit_code (run_ok "ls")) ++ ". Output:" ++ nl
          ++ (if truthy (output (run_ok "ls")) then output (run_ok "ls") else "(no output)"))).
Proof.
  assert (H : "ls" <> "report_task_completion") by discriminate.
  split; [exact H|].
  exact (goblin_executes_every_command block_all answer_once run_ok "n" "ls" TaskState_new H).
Defined.

Lemma gremlin_denial_recorded_witness :
  "rm x" <> "report_task_completion" /\ block_all "rm x" "gremlin" = (false, "blocked") /\
  answer_deny "rm x" = (1, "not now") /\ 1 <> 0 /\ 1 <> 2 /\
  handle_command_suggestion "gremlin" block_all answer_deny run_ok "y" "rm x" TaskState_new =
    (IN_PROGRESS,
     set_action TaskState_new ("Command '" ++ "rm x" ++ "' denied by user")
       ("User denied permission: " ++ "not now")).
Proof.
  assert (H1 : "rm x" <> "report_task_completion") by discriminate.
  assert (H2 : block_all "rm x" "gremlin" = (false, "blocked")) by reflexivity.
  assert (H3 : answer_deny "rm x" = (1, "not now")) by reflexivity.
  assert (H4 : 1 <> 0) by lia.
  assert (H5 : 1 <> 2) by lia.
  split; [exact H1|]. split; [exact H2|]. split; [exact H3|]. split; [exact H4|].
  split; [exact H5|].
  exact (gremlin_denial_recorded block_all answer_deny run_ok "y" "rm x" TaskState_new 1
           "blocked" "not now" H1 H2 H3 H4 H5).
Defined.

End CommandExtras.
Module PlanContextExtras.
Import HandlerFacts LoopExtras.
Local Open Scope string_scope.
Lemma plan_loop_success_shape allow input replies :
  forall ctx n st st' tr,
  plan_loop allow input replies ctx n st = (Finished IN_PROGRESS, st', tr) ->
  plan_ready allow input st'.
Proof.
  induction replies as [|reply rest IH]; intros ctx n st st' tr.
  - discriminate.
  - cbn [plan_loop]. destruct reply as [|r]; [discriminate|].
    destruct (response_ok r) as [resp|]; [|discriminate]. cbv zeta.
    destruct (prefix "CLARIFY_USER:" (parse_llm_decision resp)).
    + destruct allow.
      * intros E. injection E as <- _. right. repeat split; reflexivity.
      * match goal with
        | |- context [plan_loop ?a ?i rest ?c (S n) ?s] =>
            specialize (IH c (S n) s);
            destruct (plan_loop a i rest c (S n) s) as [[res st1] tr1]
        end.
        intros E. injection E as -> <- _. exact (IH _ _ eq_refl).
    + match goal with
      | |- context [if truthy (current_plan ?s1) && truthy (current_instruction ?s1) then _ else _] =>
          destruct (truthy (current_plan s1)) eqn:Hp; destruct (truthy (current_instruction s1)) eqn:Hi
      end; cbn [andb];
      [ intros E; injection E as <- _; left; cbn; repeat split; assumption
      | .. ];
      match goal with
      | |- context [plan_loop ?a ?i rest ?c (S n) ?s] =>
          specialize (IH c (S n) s);
          destruct (plan_loop a i rest c (S n) s) as [[res st1] tr1]
      end;
      intros E; injection E as -> <- _; exact (IH _ _ eq_refl).
Qed.

(** When [_execute_plan_phase] returns [IN_PROGRESS], either the state holds
    a non-empty plan and instruction, step 0, no pending clarification or
    evaluator decision and the plan's non-empty stripped lines as
    [plan_array], or clarifying questions are allowed and the planner asked
    one: the plan is cleared and the user's answer is recorded. *)
Theorem plan_phase_success_shape allow input replies ctx st :
  fst (fst (execute_plan_phase allow input replies ctx st)) = Finished IN_PROGRESS ->
  plan_ready allow input (snd (fst (execute_plan_phase allow input replies ctx st))).
Proof.
  unfold execute_plan_phase.
  destruct (plan_loop allow input replies ctx 0 st) as [[r st'] tr] eqn:E.
  cbn [fst snd]. intros ->. exact (plan_loop_success_shape allow input replies ctx 0 st st' tr E).
Qed.

Lemma set_user_clarification_same st :
  user_clarification st = EmptyString -> set_user_clarification st EmptyString = st.
Proof. destruct st; cbn. intros ->. reflexivity. Qed.

Ltac contains_tac :=
  first [ apply contains_refl
        | apply contains_app_l; contains_tac
        | apply contains_app_r; contains_tac ].

(** [_build_action_context] clears the user's clarification and puts the
    instruction, and the clarification when there is one, into the
    context. *)
Theorem build_action_context_uses_clarification up st :
  snd (build_action_context up st) = set_user_clarification st EmptyString /\
  contains (current_instruction st) (fst (build_action_context up st)) = true /\
  (truthy (user_clarification st) = true ->
   contains (user_clarification st) (fst (build_action_context up st)) = true).
Proof.
  unfold build_action_context. cbv zeta.
  destruct (truthy (user_clarification st)) eqn:Hu.
  - cbn [fst snd]. split; [reflexivity|].
    destruct (truthy (planner_summary st)); split; [contains_tac | intros _; contains_tac | contains_tac | intros _; contains_tac].
  - cbn [fst snd]. split.
    + symmetry. apply set_user_clarification_same.
      destruct (user_clarification st); [reflexivity | discriminate].
    + destruct (truthy (planner_summary st)); split; try discriminate; contains_tac.
Qed.

(** [_build_evaluation_context] clears the user's clarification and puts the
    plan, the instruction, the action taken, its result, and the
    clarification when there is one, into the context. *)
Theorem build_evaluation_context_reports_state up st :
  snd (build_evaluation_context up st) = set_user_clarification st EmptyString /\
  contains (current_plan st) (fst (build_evaluation_context up st)) = true /\
  contains (current_instruction st) (fst (build_evaluation_context up st)) = true /\
  contains (last_action_taken st) (fst (build_evaluation_context up st)) = true /\
  contains (last_action_result st) (fst (build_evaluation_context up st)) = true /\
  (truthy (user_clarification st) = true ->
   contains (user_clarification st) (fst (build_evaluation_context up st)) = true).
Proof.
  unfold build_evaluation_context. cbv zeta.
  destruct (truthy (definition_of_done st));
  destruct (truthy (planner_summary st));
  destruct (truthy (actor_summary st));
  destruct (truthy (user_clarification st)) eqn:Hu; cbn [fst snd];
  (split;
   [ first [ reflexivity
           | symmetry; apply set_user_clarification_same;
             destruct (user_clarification st); [reflexivity | discriminate] ]
   | repeat split; try discriminate; try intros _; contains_tac ]).
Qed.

Lemma plan_phase_success_shape_witness :
  fst (fst (execute_plan_phase true "y" [plan_reply] "list files" TaskState_new))
    = Finished IN_PROGRESS /\
  plan_ready true "y" (snd (fst (execute_plan_phase true "y" [plan_reply] "list files"
                                   TaskState_new))).
Proof.
  assert (H : fst (fst (execute_plan_phase true "y" [plan_reply] "list files" TaskState_new))
                = Finished IN_PROGRESS) by (vm_compute; reflexivity).
  split; [exact H|].
  exact (plan_phase_success_shape true "y" [plan_reply] "list files" TaskState_new H).
Defined.

End PlanContextExtras.
